(** * GitFlow-CMS: the editor's mutation pipeline

    A shallow embedding of the parts of the console that gate a write:

    - [Js]          the JavaScript string primitives the handlers rely on;
    - [Api]         [ApiClient.request] and the response types of
                    [frontend/src/lib/api.ts];
    - [Editor]      the handlers of [frontend/src/components/SmartEditor.tsx]
                    ([handleSafePush], [handleMagicPaste], [acceptMagicPaste],
                    [rejectMagicPaste]) over an explicit store;
    - [SmartLogic]  the replacement planner and patch applier of the backend;
    - [Utils]       the helpers of [frontend/src/lib/utils.ts];
    - [Session]     the rest of the editor: [loadFile], [handleEditorChange],
                    [restoreBackup] and the debounced local backup;
    - [Middleware]  the route guard of [frontend/src/middleware.ts];
    - [QuickActions], [AIChat], [FileExplorer], [Dashboard]
                    the handlers of the other components of the dashboard;
    - [Auth]        the session callbacks of [frontend/src/auth.ts].

    A JavaScript string is kept as the bytes of its UTF-8 encoding; numbers
    that the code only prints are [Z]. *)

From stdpp Require Import base strings gmap list pretty.
From Stdlib Require Import Ascii ZArith Lia.
From Stdlib Require QArith.

Local Open Scope Z_scope.

(* ===================================================================== *)
(** ** JavaScript string primitives *)
(* ===================================================================== *)

Module Js.

(** A string is falsy exactly when it is empty. *)
Definition truthy (s : string) : bool :=
  match s with
  | EmptyString => false
  | String _ _ => true
  end.

(** [a || b] on strings. *)
Definition or_else (a b : string) : string :=
  if truthy a then a else b.

(** [a || b] where [a] may be [undefined]. *)
Definition opt_or_else (a : option string) (b : string) : string :=
  match a with
  | Some s => or_else s b
  | None => b
  end.

(** [s.includes(needle)]. *)
Fixpoint includes (s needle : string) : bool :=
  String.prefix needle s ||
  match s with
  | EmptyString => false
  | String _ rest => includes rest needle
  end.

(** [s.slice(0, n)] for a non-negative [n]. *)
Definition slice_to (n : nat) (s : string) : string :=
  String.substring 0 n s.

(** [String.prototype.trim] removes the code points of ECMAScript's
    WhiteSpace and LineTerminator classes. Those of one byte: TAB, LF, VT,
    FF, CR and SP. *)
Definition is_white_space (c : ascii) : bool :=
  match Ascii.nat_of_ascii c with
  | 9%nat | 10%nat | 11%nat | 12%nat | 13%nat | 32%nat => true
  | _ => false
  end.

(** Of two bytes: U+00A0 (C2 A0). *)
Definition white_space2 (c1 c2 : ascii) : bool :=
  ((Ascii.nat_of_ascii c1 =? 194) && (Ascii.nat_of_ascii c2 =? 160))%nat.

(** Of three bytes: U+1680 (E1 9A 80), U+2000 to U+200A (E2 80 80 to
    E2 80 8A), U+2028 and U+2029 (E2 80 A8, E2 80 A9), U+202F (E2 80 AF),
    U+205F (E2 81 9F), U+3000 (E3 80 80) and U+FEFF (EF BB BF). *)
Definition white_space3 (c1 c2 c3 : ascii) : bool :=
  let n1 := Ascii.nat_of_ascii c1 in
  let n2 := Ascii.nat_of_ascii c2 in
  let n3 := Ascii.nat_of_ascii c3 in
  ((n1 =? 225) && (n2 =? 154) && (n3 =? 128)
   || (n1 =? 226) && (n2 =? 128)
      && ((128 <=? n3) && (n3 <=? 138) || (n3 =? 168) || (n3 =? 169)
          || (n3 =? 175))
   || (n1 =? 226) && (n2 =? 129) && (n3 =? 159)
   || (n1 =? 227) && (n2 =? 128) && (n3 =? 128)
   || (n1 =? 239) && (n2 =? 187) && (n3 =? 191))%nat.

(** A string is read as white-space characters and other bytes. *)
Inductive Piece : Type :=
| Space (c : ascii) (more : string)
    (* one white-space character: its first byte and the rest of them *)
| Byte (c : ascii).

Fixpoint pieces (s : string) : list Piece :=
  match s with
  | EmptyString => []
  | String c1 r1 =>
      if is_white_space c1 then Space c1 EmptyString :: pieces r1
      else
        match r1 with
        | String c2 r2 =>
            if white_space2 c1 c2
            then Space c1 (String c2 EmptyString) :: pieces r2
            else
              match r2 with
              | String c3 r3 =>
                  if white_space3 c1 c2 c3
                  then Space c1 (String c2 (String c3 EmptyString)) :: pieces r3
                  else Byte c1 :: pieces r1
              | EmptyString => Byte c1 :: pieces r1
              end
        | EmptyString => Byte c1 :: pieces r1
        end
  end.

Definition is_space (p : Piece) : bool :=
  match p with
  | Space _ _ => true
  | Byte _ => false
  end.

Definition bytes_of (p : Piece) : string :=
  match p with
  | Space c more => String c more
  | Byte c => String c EmptyString
  end.

Fixpoint join (ps : list Piece) : string :=
  match ps with
  | [] => EmptyString
  | p :: rest => bytes_of p +:+ join rest
  end.

Fixpoint drop_spaces (ps : list Piece) : list Piece :=
  match ps with
  | [] => []
  | p :: rest => if is_space p then drop_spaces rest else ps
  end.

(** [s.trim()]: the white space at the start goes, then the white space at
    the end. *)
Definition trim (s : string) : string :=
  join (reverse (drop_spaces (reverse (drop_spaces (pieces s))))).

(** Every character of [s] is white space (so also: [s] is empty). *)
Definition blank (s : string) : bool :=
  forallb is_space (pieces s).

(** [`${n}`] for an integral number. *)
Definition of_number (n : Z) : string := pretty n.

(** [`${x}`] where [x] may be [undefined]. *)
Definition of_opt_number (n : option Z) : string :=
  match n with
  | Some k => of_number k
  | None => "undefined"
  end.

Definition of_opt_string (s : option string) : string :=
  match s with
  | Some t => t
  | None => "undefined"
  end.

(** [s.replace(/\//g, "_")]. *)
Fixpoint replace_slashes (s : string) : string :=
  match s with
  | EmptyString => EmptyString
  | String c rest =>
      String (if Ascii.eqb c "/"%char then "_"%char else c) (replace_slashes rest)
  end.

End Js.

(* ===================================================================== *)
(** ** lib/api.ts *)
(* ===================================================================== *)

Module Api.

(** What a [throw] carries. [ApiError] extends [Error]; [JsError] is any
    other [Error] instance (a [TypeError] from a rejected [fetch], a
    [SyntaxError] from [response.json()]); [NonError] is a thrown value that
    is not an [Error]. *)
Inductive Thrown : Type :=
| ApiError (status : Z) (message : string)
| JsError (name message : string)
| NonError.

(** The completion of an [async] call: the promise resolves or rejects. *)
Inductive Completion (A : Type) : Type :=
| Returned (a : A)
| Threw (e : Thrown).
Arguments Returned {A} a.
Arguments Threw {A} e.

(** A JSON number, as far as [||] and [String(...)] can tell: whether it is
    zero, and how it prints. *)
Record Number : Type := {
  is_zero : bool;
  printed : string
}.

(** What [response.json()] delivers. The members of an object are in the
    order of the text; a later member replaces an earlier one of the same
    name. *)
#[local] Unset Elimination Schemes.
Inductive Json : Type :=
| JNull
| JBool (b : bool)
| JNumber (n : Number)
| JString (s : string)
| JArray (items : list Json)
| JObject (members : list (string * Json)).
#[local] Set Elimination Schemes.

(** A value in a condition. *)
Definition json_truthy (v : Json) : bool :=
  match v with
  | JNull => false
  | JBool b => b
  | JNumber n => negb (is_zero n)
  | JString s => Js.truthy s
  | JArray _ | JObject _ => true
  end.

Fixpoint member (key : string) (members : list (string * Json)) : option Json :=
  match members with
  | [] => None
  | (k, v) :: rest =>
      match member key rest with
      | Some later => Some later
      | None => if String.eqb k key then Some v else None
      end
  end.

(** [v[key]] for a [key] that no prototype has (such as [detail] and
    [error]) and a [v] that is not [null]: the member of an object, and
    [undefined] for every other value. *)
Definition property (key : string) (v : Json) : option Json :=
  match v with
  | JObject members => member key members
  | _ => None
  end.

(** [String(v)]. An array prints its items with commas between them, [null]
    items as nothing; an object prints as [[object Object]], unless it has a
    member [toString]: that member hides the method and is not a function,
    and the conversion throws a [TypeError] ([None]). *)
Fixpoint to_string (v : Json) : option string :=
  match v with
  | JNull => Some "null"
  | JBool b => Some (if b then "true" else "false")
  | JNumber n => Some (printed n)
  | JString s => Some s
  | JArray items =>
      (fix items_to_string (items : list Json) : option string :=
         match items with
         | [] => Some ""
         | item :: rest =>
             match (match item with
                    | JNull => Some ""
                    | _ => to_string item
                    end), rest with
             | Some first, [] => Some first
             | Some first, _ :: _ =>
                 match items_to_string rest with
                 | Some others => Some (first +:+ "," +:+ others)
                 | None => None
                 end
             | None, _ => None
             end
         end) items
  | JObject members =>
      match member "toString" members with
      | Some _ => None
      | None => Some "[object Object]"
      end
  end.

(** [!a] where [a] may be [undefined]. *)
Definition json_falsy (a : option Json) : bool :=
  match a with
  | Some v => negb (json_truthy v)
  | None => true
  end.

(** [a || b] where [a] may be [undefined]. *)
Definition json_or_else (a : option Json) (b : Json) : Json :=
  match a with
  | Some v => if json_truthy v then v else b
  | None => b
  end.

(** What [fetch] and the response deliver for one request. *)
Inductive FetchOutcome (T : Type) : Type :=
| FetchRejected (message : string)
    (* the network call itself fails *)
| HttpFailure (status : Z) (body : option Json)
    (* [response.ok] is false; [None]: the body is not JSON *)
| HttpSuccess (data : T)
    (* [response.ok] and the body parses *)
| HttpSuccessNotJson (message : string).
    (* [response.ok] but [response.json()] rejects *)
Arguments FetchRejected {T} message.
Arguments HttpFailure {T} status body.
Arguments HttpSuccess {T} data.
Arguments HttpSuccessNotJson {T} message.

(** [.catch(() => ({ error: "Unknown error" }))] *)
Definition error_body (body : option Json) : Json :=
  match body with
  | Some b => b
  | None => JObject [("error", JString "Unknown error")]
  end.

(** [error.detail || error.error || "Request failed"] *)
Definition thrown_message (b : Json) : Json :=
  json_or_else (property "detail" b)
    (json_or_else (property "error" b) (JString "Request failed")).

(** The messages of the two [TypeError]s below, in the wording of V8. *)
Definition null_property_message : string :=
  "Cannot read properties of null (reading 'detail')".
Definition not_primitive_message : string :=
  "Cannot convert object to primitive value".

(** [throw new ApiError(response.status, error.detail || error.error ||
    "Request failed")]. Reading [detail] off [null] throws; so does the
    [Error] constructor when the message does not convert to a string. *)
Definition failure (status : Z) (b : Json) : Thrown :=
  match b with
  | JNull => JsError "TypeError" null_property_message
  | _ =>
      match to_string (thrown_message b) with
      | Some message => ApiError status message
      | None => JsError "TypeError" not_primitive_message
      end
  end.

(** [ApiClient.request], after the [fetch]. *)
Definition request {T : Type} (o : FetchOutcome T) : Completion T :=
  match o with
  | FetchRejected m => Threw (JsError "TypeError" m)
  | HttpFailure status body => Threw (failure status (error_body body))
  | HttpSuccess data => Returned data
  | HttpSuccessNotJson m => Threw (JsError "SyntaxError" m)
  end.

(** [err instanceof Error ? err.message : "Unknown error"] *)
Definition message_of (e : Thrown) : string :=
  match e with
  | ApiError _ m => m
  | JsError _ m => m
  | NonError => "Unknown error"
  end.

Record CommitRequest : Type := {
  repo_full_name : string;
  file_path : string;
  commit_content : string;
  commit_message : string;
  commit_branch : option string;
  expected_sha : option string
}.

Record CommitResponse : Type := {
  success : bool;
  commit_sha : option string;
  file_sha : option string;
  commit_response_message : string
}.

Record SecretAlert : Type := {
  alert_type : string;
  severity : string;
  alert_line : Z;
  alert_message : string;
  preview : string
}.

Record ScanResponse : Type := {
  is_safe : bool;
  secrets_found : Z;
  alerts : list SecretAlert
}.

Record SmartReplaceRequest : Type := {
  sr_file_path : string;
  full_file_content : string;
  new_snippet : string;
  sr_language : option string
}.

Record DiffInfo : Type := {
  original_start : Z;
  original_end : Z;
  original_source : string
}.

Record SmartReplaceResponse : Type := {
  sr_success : bool;
  updated_content : string;
  operation : string;
  target_name : option string;
  sr_message : string;
  diff_info : option DiffInfo
}.

Record SyntaxValidateResponse : Type := {
  is_valid : bool;
  error_message : option string;
  error_line : option Z;
  error_column : option Z
}.

(** The endpoint methods of [ApiClient] the editor uses, with their
    arguments. *)
Inductive ApiCall : Type :=
| ScanSecrets (content : string) (filename : option string)
| ValidateSyntax (content language : string) (filename : option string)
| CommitFile (data : CommitRequest)
| SmartReplace (data : SmartReplaceRequest).

(** How the backend answers each request while one handler runs. *)
Record Backend : Type := {
  on_scanSecrets : string -> option string -> FetchOutcome ScanResponse;
  on_validateSyntax :
    string -> string -> option string -> FetchOutcome SyntaxValidateResponse;
  on_commitFile : CommitRequest -> FetchOutcome CommitResponse;
  on_smartReplace : SmartReplaceRequest -> FetchOutcome SmartReplaceResponse
}.

(** The call hands its result to the caller as a value. *)
Definition returns_value {T : Type} (o : FetchOutcome T) : Prop :=
  exists v : T, request o = Returned v.

End Api.

(* ===================================================================== *)
(** ** components/SmartEditor.tsx *)
(* ===================================================================== *)

Module Editor.
Import Api.

(** The props of the component. [language] is the value of
    [getMonacoLanguage(filePath)] for this render; [onSaveSuccess] records
    whether the optional callback was passed. *)
Record Props : Type := {
  owner : string;
  repo : string;
  filePath : string;
  branch : option string;
  accessToken : string;
  onSaveSuccess : bool;
  language : string
}.

(** [getBackupKey(`${owner}/${repo}`, filePath)] *)
Definition getBackupKey (repo_name path : string) : string :=
  "gitflow_backup_" +:+ repo_name +:+ "_" +:+ Js.replace_slashes path.

Definition backupKey (p : Props) : string :=
  getBackupKey (owner p +:+ "/" +:+ repo p) (filePath p).

(** The [useState] cells of the component. *)
Record EditorState : Type := {
  content : string;
  originalContent : string;
  sha : string;
  isLoading : bool;
  isSaving : bool;
  hasUnsavedChanges : bool;
  isBinary : bool;
  binaryUrl : string;
  showMagicPaste : bool;
  magicPasteCode : string;
  magicPasteResult : option SmartReplaceResponse;
  isProcessingMagic : bool;
  hasLocalBackup : bool
}.

Inductive ToastLevel : Type := Loading | Error | Success.

Record Toast : Type := {
  level : ToastLevel;
  title : string;
  toast_id : option string;
  description : option string;
  duration : option Z
}.

(** What a handler does to the outside, in program order. *)
Inductive Event : Type :=
| Fetched (authorization : option string) (call : ApiCall)
| Toasted (t : Toast)
| SaveSuccessCalled.

(** Everything a handler can read or change: the state cells, the browser's
    [localStorage], the token held by the [api] singleton, and the trace of
    its outside effects. *)
Record World : Type := {
  ui : EditorState;
  localStorage : gmap string string;
  api_token : option string;
  trace : list Event
}.

Definition with_ui (f : EditorState -> EditorState) (w : World) : World :=
  {| ui := f (ui w); localStorage := localStorage w;
     api_token := api_token w; trace := trace w |}.

Definition with_event (e : Event) (w : World) : World :=
  {| ui := ui w; localStorage := localStorage w;
     api_token := api_token w; trace := trace w ++ [e] |}.

(** *** State setters *)

Definition put_content (v : string) (s : EditorState) : EditorState :=
  {| content := v; originalContent := originalContent s; sha := sha s;
     isLoading := isLoading s; isSaving := isSaving s;
     hasUnsavedChanges := hasUnsavedChanges s; isBinary := isBinary s;
     binaryUrl := binaryUrl s; showMagicPaste := showMagicPaste s;
     magicPasteCode := magicPasteCode s; magicPasteResult := magicPasteResult s;
     isProcessingMagic := isProcessingMagic s; hasLocalBackup := hasLocalBackup s |}.

Definition put_originalContent (v : string) (s : EditorState) : EditorState :=
  {| content := content s; originalContent := v; sha := sha s;
     isLoading := isLoading s; isSaving := isSaving s;
     hasUnsavedChanges := hasUnsavedChanges s; isBinary := isBinary s;
     binaryUrl := binaryUrl s; showMagicPaste := showMagicPaste s;
     magicPasteCode := magicPasteCode s; magicPasteResult := magicPasteResult s;
     isProcessingMagic := isProcessingMagic s; hasLocalBackup := hasLocalBackup s |}.

Definition put_sha (v : string) (s : EditorState) : EditorState :=
  {| content := content s; originalContent := originalContent s; sha := v;
     isLoading := isLoading s; isSaving := isSaving s;
     hasUnsavedChanges := hasUnsavedChanges s; isBinary := isBinary s;
     binaryUrl := binaryUrl s; showMagicPaste := showMagicPaste s;
     magicPasteCode := magicPasteCode s; magicPasteResult := magicPasteResult s;
     isProcessingMagic := isProcessingMagic s; hasLocalBackup := hasLocalBackup s |}.

Definition put_isSaving (v : bool) (s : EditorState) : EditorState :=
  {| content := content s; originalContent := originalContent s; sha := sha s;
     isLoading := isLoading s; isSaving := v;
     hasUnsavedChanges := hasUnsavedChanges s; isBinary := isBinary s;
     binaryUrl := binaryUrl s; showMagicPaste := showMagicPaste s;
     magicPasteCode := magicPasteCode s; magicPasteResult := magicPasteResult s;
     isProcessingMagic := isProcessingMagic s; hasLocalBackup := hasLocalBackup s |}.

Definition put_hasUnsavedChanges (v : bool) (s : EditorState) : EditorState :=
  {| content := content s; originalContent := originalContent s; sha := sha s;
     isLoading := isLoading s; isSaving := isSaving s;
     hasUnsavedChanges := v; isBinary := isBinary s;
     binaryUrl := binaryUrl s; showMagicPaste := showMagicPaste s;
     magicPasteCode := magicPasteCode s; magicPasteResult := magicPasteResult s;
     isProcessingMagic := isProcessingMagic s; hasLocalBackup := hasLocalBackup s |}.

Definition put_showMagicPaste (v : bool) (s : EditorState) : EditorState :=
  {| content := content s; originalContent := originalContent s; sha := sha s;
     isLoading := isLoading s; isSaving := isSaving s;
     hasUnsavedChanges := hasUnsavedChanges s; isBinary := isBinary s;
     binaryUrl := binaryUrl s; showMagicPaste := v;
     magicPasteCode := magicPasteCode s; magicPasteResult := magicPasteResult s;
     isProcessingMagic := isProcessingMagic s; hasLocalBackup := hasLocalBackup s |}.

Definition put_magicPasteCode (v : string) (s : EditorState) : EditorState :=
  {| content := content s; originalContent := originalContent s; sha := sha s;
     isLoading := isLoading s; isSaving := isSaving s;
     hasUnsavedChanges := hasUnsavedChanges s; isBinary := isBinary s;
     binaryUrl := binaryUrl s; showMagicPaste := showMagicPaste s;
     magicPasteCode := v; magicPasteResult := magicPasteResult s;
     isProcessingMagic := isProcessingMagic s; hasLocalBackup := hasLocalBackup s |}.

Definition put_magicPasteResult (v : option SmartReplaceResponse)
    (s : EditorState) : EditorState :=
  {| content := content s; originalContent := originalContent s; sha := sha s;
     isLoading := isLoading s; isSaving := isSaving s;
     hasUnsavedChanges := hasUnsavedChanges s; isBinary := isBinary s;
     binaryUrl := binaryUrl s; showMagicPaste := showMagicPaste s;
     magicPasteCode := magicPasteCode s; magicPasteResult := v;
     isProcessingMagic := isProcessingMagic s; hasLocalBackup := hasLocalBackup s |}.

Definition put_isProcessingMagic (v : bool) (s : EditorState) : EditorState :=
  {| content := content s; originalContent := originalContent s; sha := sha s;
     isLoading := isLoading s; isSaving := isSaving s;
     hasUnsavedChanges := hasUnsavedChanges s; isBinary := isBinary s;
     binaryUrl := binaryUrl s; showMagicPaste := showMagicPaste s;
     magicPasteCode := magicPasteCode s; magicPasteResult := magicPasteResult s;
     isProcessingMagic := v; hasLocalBackup := hasLocalBackup s |}.

(** *** The handler monad: state, trace and exceptions *)

Definition M (A : Type) : Type := World -> Completion A * World.

Definition ret {A : Type} (a : A) : M A := fun w => (Returned a, w).

Definition bind {A B : Type} (m : M A) (k : A -> M B) : M B :=
  fun w =>
    match m w with
    | (Returned a, w') => k a w'
    | (Threw e, w') => (Threw e, w')
    end.

Notation "x <- m ;; k" := (bind m (fun x => k))
  (at level 100, m at next level, right associativity).
Notation "m ;;; k" := (bind m (fun _ => k))
  (at level 100, right associativity).

(** [try { body } catch (err) { handler(err) } finally { finalizer }] *)
Definition try_catch_finally {A : Type}
    (body : M A) (handler : Thrown -> M A) (finalizer : M unit) : M A :=
  fun w =>
    let '(r, w1) :=
      match body w with
      | (Returned a, w') => (Returned a, w')
      | (Threw e, w') => handler e w'
      end in
    match finalizer w1 with
    | (Returned _, w2) => (r, w2)
    | (Threw e, w2) => (Threw e, w2)
    end.

Definition modify_ui (f : EditorState -> EditorState) : M unit :=
  fun w => (Returned tt, with_ui f w).

Definition emit (e : Event) : M unit :=
  fun w => (Returned tt, with_event e w).

Definition setContent v := modify_ui (put_content v).
Definition setOriginalContent v := modify_ui (put_originalContent v).
Definition setSha v := modify_ui (put_sha v).
Definition setIsSaving v := modify_ui (put_isSaving v).
Definition setHasUnsavedChanges v := modify_ui (put_hasUnsavedChanges v).
Definition setShowMagicPaste v := modify_ui (put_showMagicPaste v).
Definition setMagicPasteCode v := modify_ui (put_magicPasteCode v).
Definition setMagicPasteResult v := modify_ui (put_magicPasteResult v).
Definition setIsProcessingMagic v := modify_ui (put_isProcessingMagic v).

(** [storage.remove(key)] *)
Definition storage_remove (key : string) : M unit :=
  fun w => (Returned tt,
            {| ui := ui w; localStorage := delete key (localStorage w);
               api_token := api_token w; trace := trace w |}).

(** [toast.loading(...)], [toast.error(...)], [toast.success(...)] *)
Definition show (t : Toast) : M unit := emit (Toasted t).

Definition loading (t : string) : Toast :=
  {| level := Loading; title := t; toast_id := Some "push";
     description := None; duration := None |}.

(** [api.setToken(token)] *)
Definition api_setToken (token : string) : M unit :=
  fun w => (Returned tt,
            {| ui := ui w; localStorage := localStorage w;
               api_token := Some token; trace := trace w |}).

(** [...(this.token && { Authorization: `Bearer ${this.token}` })] *)
Definition authorization_header (token : option string) : option string :=
  match token with
  | Some t => if Js.truthy t then Some ("Bearer " +:+ t) else None
  | None => None
  end.

(** An endpoint method: the request goes out, then [request] turns what
    comes back into a value or a throw. *)
Definition call {T : Type} (c : ApiCall) (o : FetchOutcome T) : M T :=
  fun w =>
    (request o, with_event (Fetched (authorization_header (api_token w)) c) w).

Section Handlers.

Variable server : Backend.
Variable props : Props.

Definition api_scanSecrets (c : string) (filename : option string) : M ScanResponse :=
  call (ScanSecrets c filename) (on_scanSecrets server c filename).

Definition api_validateSyntax (c lang : string) (filename : option string)
    : M SyntaxValidateResponse :=
  call (ValidateSyntax c lang filename) (on_validateSyntax server c lang filename).

Definition api_commitFile (data : CommitRequest) : M CommitResponse :=
  call (CommitFile data) (on_commitFile server data).

Definition api_smartReplace (data : SmartReplaceRequest) : M SmartReplaceResponse :=
  call (SmartReplace data) (on_smartReplace server data).

(** The request of step 3, from the values the render closed over. *)
Definition commit_request (r : EditorState) : CommitRequest :=
  {| repo_full_name := owner props +:+ "/" +:+ repo props;
     file_path := filePath props;
     commit_content := content r;
     commit_message := "Update " +:+ filePath props +:+ " via GitFlow-CMS";
     commit_branch := branch props;
     expected_sha := Some (sha r) |}.

Definition secrets_toast (scanResult : ScanResponse) : Toast :=
  {| level := Error;
     title := "🚨 Security Alert: Secrets Detected!";
     toast_id := Some "push";
     description :=
       Some ("Found " +:+ Js.of_number (secrets_found scanResult)
             +:+ " potential secret(s). Push blocked.");
     duration := Some 10000 |}.

Definition syntax_toast (syntaxResult : SyntaxValidateResponse) : Toast :=
  {| level := Error;
     title := "❌ Syntax Error Detected";
     toast_id := Some "push";
     description :=
       Some ("Line " +:+ Js.of_opt_number (error_line syntaxResult) +:+ ": "
             +:+ Js.of_opt_string (error_message syntaxResult));
     duration := Some 10000 |}.

Definition success_toast (commitResult : CommitResponse) : Toast :=
  {| level := Success;
     title := "✅ Push Successful!";
     toast_id := Some "push";
     description :=
       Some ("Commit: "
             +:+ Js.of_opt_string (Js.slice_to 7 <$> commit_sha commitResult));
     duration := None |}.

Definition conflict_toast : Toast :=
  {| level := Error;
     title := "⚠️ Merge Conflict!";
     toast_id := Some "push";
     description :=
       Some "File was modified on server. Please refresh and try again.";
     duration := None |}.

Definition failed_toast (message : string) : Toast :=
  {| level := Error;
     title := "Push failed";
     toast_id := Some "push";
     description := Some message;
     duration := None |}.

(** The test by which the [catch] block tells a conflict from other
    failures. *)
Definition mentions_conflict (message : string) : bool :=
  Js.includes message "Conflict" || Js.includes message "409".

(** The [catch] block of [handleSafePush]. *)
Definition push_catch (err : Thrown) : M unit :=
  let message := message_of err in
  if mentions_conflict message
  then show conflict_toast
  else show (failed_toast message).

(** The [try] block of [handleSafePush]. [r] holds the state values of the
    render whose closure the handler is; an early [return] is the end of
    its branch. *)
Definition push_body (r : EditorState) : M unit :=
  api_setToken (accessToken props) ;;;
  (* Step 1: Scan for secrets *)
  show (loading "Scanning for secrets...") ;;;
  scanResult <- api_scanSecrets (content r) (Some (filePath props)) ;;
  if negb (is_safe scanResult) then
    show (secrets_toast scanResult)
  else
    (* Step 2: Validate syntax *)
    show (loading "Validating syntax...") ;;;
    syntaxResult <-
      api_validateSyntax (content r) (language props) (Some (filePath props)) ;;
    if negb (is_valid syntaxResult) then
      show (syntax_toast syntaxResult)
    else
      (* Step 3: Commit with optimistic locking *)
      show (loading "Pushing to GitHub...") ;;;
      commitResult <- api_commitFile (commit_request r) ;;
      if success commitResult then
        show (success_toast commitResult) ;;;
        setSha (Js.opt_or_else (file_sha commitResult) (sha r)) ;;;
        setOriginalContent (content r) ;;;
        setHasUnsavedChanges false ;;;
        storage_remove (backupKey props) ;;;
        (if onSaveSuccess props then emit SaveSuccessCalled else ret tt)
      else ret tt.

Definition handleSafePush (r : EditorState) : M unit :=
  setIsSaving true ;;;
  try_catch_finally (push_body r) push_catch (setIsSaving false).

Definition magic_failed_toast (message : string) : Toast :=
  {| level := Error; title := "Smart Replace failed"; toast_id := None;
     description := Some message; duration := None |}.

(** The [catch] block of [handleMagicPaste]. *)
Definition magic_catch (err : Thrown) : M unit :=
  show (magic_failed_toast (message_of err)).

Definition paste_first_toast : Toast :=
  {| level := Error; title := "Please paste some code first"; toast_id := None;
     description := None; duration := None |}.

Definition accepted_toast (result : SmartReplaceResponse) : Toast :=
  {| level := Success; title := sr_message result; toast_id := None;
     description := None; duration := None |}.

Definition handleMagicPaste (r : EditorState) : M unit :=
  if negb (Js.truthy (Js.trim (magicPasteCode r))) then
    show paste_first_toast
  else
    setIsProcessingMagic true ;;;
    try_catch_finally
      (api_setToken (accessToken props) ;;;
       result <- api_smartReplace
                   {| sr_file_path := filePath props;
                      full_file_content := content r;
                      new_snippet := magicPasteCode r;
                      sr_language := Some (language props) |} ;;
       setMagicPasteResult (Some result))
      magic_catch
      (setIsProcessingMagic false).

Definition acceptMagicPaste (r : EditorState) : M unit :=
  match magicPasteResult r with
  | Some result =>
      setContent (updated_content result) ;;;
      setHasUnsavedChanges true ;;;
      show (accepted_toast result) ;;;
      setShowMagicPaste false ;;;
      setMagicPasteCode "" ;;;
      setMagicPasteResult None
  | None => ret tt
  end.

Definition rejectMagicPaste (r : EditorState) : M unit :=
  setMagicPasteResult None.

(** The [disabled] prop of the "Apply Magic" button. *)
Definition applyMagic_disabled (r : EditorState) : bool :=
  negb (Js.truthy (Js.trim (magicPasteCode r))) || isProcessingMagic r.

(** The [disabled] prop of the "Safe Push" button. *)
Definition safePush_disabled (r : EditorState) : bool :=
  negb (hasUnsavedChanges r) || isSaving r.

(** A click: the handler of the current render runs on the current world. *)
Definition click (handler : EditorState -> M unit) (w : World) : World :=
  snd (handler (ui w) w).

End Handlers.

(** *** Reading a trace *)

Definition call_of (e : Event) : option ApiCall :=
  match e with
  | Fetched _ c => Some c
  | _ => None
  end.

Definition toast_of (e : Event) : option Toast :=
  match e with
  | Toasted t => Some t
  | _ => None
  end.

(** The requests, respectively toasts, of a trace, in order. *)
Definition calls (tr : list Event) : list ApiCall := omap call_of tr.
Definition toasts (tr : list Event) : list Toast := omap toast_of tr.

Definition is_validate (c : ApiCall) : bool :=
  match c with ValidateSyntax _ _ _ => true | _ => false end.
Definition is_commit (c : ApiCall) : bool :=
  match c with CommitFile _ => true | _ => false end.

(** *** The backend's answers, as the commit gate reads them *)

Definition scan_passed (server : Backend) (props : Props) (r : EditorState)
    : bool :=
  match on_scanSecrets server (content r) (Some (filePath props)) with
  | HttpSuccess scanResult => is_safe scanResult
  | _ => false
  end.

Definition syntax_passed (server : Backend) (props : Props) (r : EditorState)
    : bool :=
  match on_validateSyntax server (content r) (language props)
          (Some (filePath props)) with
  | HttpSuccess syntaxResult => is_valid syntaxResult
  | _ => false
  end.

Inductive RejectReason : Type := SecretFound | SyntaxInvalid | FingerprintMismatch.

Inductive Outcome : Type :=
| Committed
| Rejected (reason : RejectReason)
| NotAccepted    (* the backend answers OK with [success = false] *)
| Failed.        (* transport or backend failure *)

(** A failed commit is a fingerprint mismatch when the backend answers 409,
    or when the message is one the handler takes for a conflict. *)
Definition is_mismatch (e : Thrown) : bool :=
  match e with
  | ApiError status m => (status =? 409) || mentions_conflict m
  | _ => mentions_conflict (message_of e)
  end.

Definition commit_outcome (c : Completion CommitResponse) : Outcome :=
  match c with
  | Returned commitResult =>
      if success commitResult then Committed else NotAccepted
  | Threw e => if is_mismatch e then Rejected FingerprintMismatch else Failed
  end.

(** The path of section 4.6 that an attempt takes, from the backend's
    answers to the requests of the render [r]. *)
Definition attempt_outcome (server : Backend) (props : Props) (r : EditorState)
    : Outcome :=
  match request (on_scanSecrets server (content r) (Some (filePath props))) with
  | Returned scanResult =>
      if is_safe scanResult then
        match request (on_validateSyntax server (content r) (language props)
                         (Some (filePath props))) with
        | Returned syntaxResult =>
            if is_valid syntaxResult then
              commit_outcome
                (request (on_commitFile server (commit_request props r)))
            else Rejected SyntaxInvalid
        | Threw _ => Failed
        end
      else Rejected SecretFound
  | Threw _ => Failed
  end.

(** One Safe Push attempt: a click on the button in world [w]. *)
Definition safe_push (server : Backend) (props : Props) (w : World) : World :=
  click (handleSafePush server props) w.

(** The requests a handler issued between two worlds. *)
Definition issued (before after : World) : list ApiCall :=
  drop (length (calls (trace before))) (calls (trace after)).

(** What is thrown inside the [try] block of an attempt, if anything: the
    error of the first request that fails. *)
Definition push_thrown (server : Backend) (props : Props) (r : EditorState)
    : option Thrown :=
  match request (on_scanSecrets server (content r) (Some (filePath props))) with
  | Returned scanResult =>
      if is_safe scanResult then
        match request (on_validateSyntax server (content r) (language props)
                         (Some (filePath props))) with
        | Returned syntaxResult =>
            if is_valid syntaxResult then
              match request (on_commitFile server (commit_request props r)) with
              | Returned _ => None
              | Threw e => Some e
              end
            else None
        | Threw e => Some e
        end
      else None
  | Threw e => Some e
  end.

(** The toast the [catch] block of [handleSafePush] shows for [e]. *)
Definition caught_toast (e : Thrown) : Toast :=
  if mentions_conflict (message_of e)
  then conflict_toast
  else failed_toast (message_of e).

(** The toasts a handler showed between two worlds. *)
Definition shown (before after : World) : list Toast :=
  drop (length (toasts (trace before))) (toasts (trace after)).

(** The toast left on screen: every toast of the commit gate carries the id
    [push], so each one replaces the one before. *)
Definition final_toast (before after : World) : option Toast :=
  last (shown before after).

End Editor.

(* ===================================================================== *)
(** ** The smart-replace core (backend/smart_logic.py) *)
(* ===================================================================== *)

(** The planner and the patch applier run in the backend, behind
    [/api/smart/replace]; the frontend only sees their result. A text is the
    list of its characters, and an offset counts characters from 0. *)

Module SmartLogic.

Local Open Scope nat_scope.

(** Modelled from the spec: the data model of section 3 ([SourceSpan],
    [Construct], [Fragment], [ReplacementPlan], [PatchResult]); the backend
    that declares these types is not among the sources. *)
Inductive ConstructKind : Type := Function | Method | Class.

Global Instance ConstructKind_eq_dec : EqDecision ConstructKind.
Proof. solve_decision. Defined.

Record SourceSpan : Type := {
  start_offset : nat;
  end_offset : nat;
  start_line : nat;
  end_line : nat
}.

Record Construct : Type := {
  name : string;
  kind : ConstructKind;
  span : SourceSpan;
  indent_prefix : list ascii
}.

Record Fragment : Type := {
  raw_text : list ascii;
  declared_name : option string;
  fragment_kind : option ConstructKind
}.

Inductive Operation : Type := Replace | Append.

Record ReplacementPlan : Type := {
  operation : Operation;
  target_span : option SourceSpan;
  target_name : option string
}.

Record PatchResult : Type := {
  updated_content : list ascii;
  result_operation : Operation;
  result_target_name : option string;
  original_excerpt : option (list ascii)
}.

Definition LF : ascii := "010"%char.

(** [text[a:b]] for offsets from 0, as Python slices. *)
Definition slice (a b : nat) (text : list ascii) : list ascii :=
  take (b - a) (drop a text).

(** The slice of [text] a span covers. *)
Definition covered (sp : SourceSpan) (text : list ascii) : list ascii :=
  slice (start_offset sp) (end_offset sp) text.

(** *** Replacement planner *)

(** Modelled from the spec: the planner's match test of section 4.3, rule 2,
    [name == fragment.declared_name and kind == fragment.kind] (the backend's
    planner is not among the sources). *)
Definition same_construct (n : string) (k : option ConstructKind)
    (c : Construct) : bool :=
  bool_decide (name c = n) && bool_decide (Some (kind c) = k).

Definition append_plan : ReplacementPlan :=
  {| operation := Append; target_span := None; target_name := None |}.

Definition replace_plan (c : Construct) : ReplacementPlan :=
  {| operation := Replace; target_span := Some (span c);
     target_name := Some (name c) |}.

(** Modelled from the spec: [plan(file_constructs, fragment)], the decision
    rule of section 4.3 (the backend's planner is not among the sources):
    no declared name, or no match, appends; one match is replaced; of
    several matches the last is replaced. *)
Definition plan (file_constructs : list Construct) (fragment : Fragment)
    : ReplacementPlan :=
  match declared_name fragment with
  | None => append_plan
  | Some n =>
      match filter (fun c => same_construct n (fragment_kind fragment) c = true)
                   file_constructs with
      | [] => append_plan
      | [c] => replace_plan c
      | c :: more => replace_plan (List.last more c)
      end
  end.

(** *** Patch applier *)

Definition is_space (c : ascii) : bool := Js.is_white_space c.

Definition is_indent (c : ascii) : bool :=
  bool_decide (c = " "%char) || bool_decide (c = "009"%char).

Fixpoint drop_while (p : ascii -> bool) (l : list ascii) : list ascii :=
  match l with
  | [] => []
  | c :: rest => if p c then drop_while p rest else l
  end.

Fixpoint take_while (p : ascii -> bool) (l : list ascii) : list ascii :=
  match l with
  | [] => []
  | c :: rest => if p c then c :: take_while p rest else []
  end.

(** Modelled from the spec: "fragment_text (trimmed, ...)" of section 4.4;
    white space is removed at both ends. *)
Definition trimmed (text : list ascii) : list ascii :=
  reverse (drop_while is_space (reverse (drop_while is_space text))).

(** The lines of a text, split at LF. *)
Fixpoint lines_from (cur : list ascii) (text : list ascii) : list (list ascii) :=
  match text with
  | [] => [reverse cur]
  | c :: rest =>
      if bool_decide (c = LF) then reverse cur :: lines_from [] rest
      else lines_from (c :: cur) rest
  end.

Definition lines (text : list ascii) : list (list ascii) := lines_from [] text.

Fixpoint unlines (ls : list (list ascii)) : list ascii :=
  match ls with
  | [] => []
  | [l] => l
  | l :: rest => l ++ LF :: unlines rest
  end.

(** The indentation of the first line of a fragment: the spaces and tabs
    right before its first character that is not white space. *)
Definition first_indent (fragment_text : list ascii) : list ascii :=
  reverse (take_while is_indent (reverse (take_while is_space fragment_text))).

(** A line without its first [k] characters of indentation, or without all
    of its indentation when that is shorter. *)
Definition dedent (k : nat) (line : list ascii) : list ascii :=
  drop (k `min` length (take_while is_indent line)) line.

(** Modelled from the spec: the re-indentation rule of section 4.4. All
    non-empty lines are shifted by one amount: each loses the indentation
    [k] of the fragment's first line and gets [indent] instead, so the first
    line stands at [indent] and the others keep their distance to it; empty
    lines stay empty. *)
Definition reindent (indent : list ascii) (k : nat) (text : list ascii)
    : list ascii :=
  unlines ((fun l => match l with [] => [] | _ => indent ++ dedent k l end)
             <$> lines text).

(** Modelled from the spec: [indent_prefix] as section 4.1 defines it, the
    leading white space of the line on which the definition starts. The plan
    of section 3 does not carry it, so the applier reads it off the original
    text at the target span. *)
Definition line_start (text : list ascii) (offset : nat) : nat :=
  let before := take offset text in
  length before
  - length (take_while (fun c => negb (bool_decide (c = LF))) (reverse before)).

Definition indent_prefix_at (text : list ascii) (sp : SourceSpan) : list ascii :=
  take_while is_indent (drop (line_start text (start_offset sp)) text).

(** The text a Replace plan puts in place of the target span. *)
Definition replacement_text (original_text : list ascii) (sp : SourceSpan)
    (fragment_text : list ascii) : list ascii :=
  reindent (indent_prefix_at original_text sp)
    (length (first_indent fragment_text)) (trimmed fragment_text).

Definition ends_with_newline (text : list ascii) : bool :=
  match reverse text with
  | c :: _ => bool_decide (c = LF)
  | [] => false
  end.

(** Modelled from the spec: the Append rule of section 4.4. *)
Definition appended (original_text fragment_text : list ascii) : list ascii :=
  original_text
  ++ (if ends_with_newline original_text then [] else [LF])
  ++ LF :: fragment_text.

(** Modelled from the spec: [apply(original_text, plan, fragment_text)] of
    section 4.4 (the backend's patch applier is not among the sources). A
    Replace plan carries its target span (section 3); a plan without one is
    applied as an Append. *)
Definition apply (original_text : list ascii) (p : ReplacementPlan)
    (fragment_text : list ascii) : PatchResult :=
  match operation p, target_span p with
  | Replace, Some sp =>
      {| updated_content :=
           take (start_offset sp) original_text
           ++ replacement_text original_text sp fragment_text
           ++ drop (end_offset sp) original_text;
         result_operation := Replace;
         result_target_name := target_name p;
         original_excerpt := Some (covered sp original_text) |}
  | _, _ =>
      {| updated_content := appended original_text fragment_text;
         result_operation := Append;
         result_target_name := target_name p;
         original_excerpt := None |}
  end.

(** Modelled from the spec: what sections 3 and 4.1 promise of the
    locator's output for a text (the locator is not among the sources):
    spans are well-formed, ascend without overlap, and lie within the
    text. *)
Fixpoint spans_ascending (from : nat) (cs : list Construct) : bool :=
  match cs with
  | [] => true
  | c :: rest =>
      (from <=? start_offset (span c))
      && (start_offset (span c) <=? end_offset (span c))
      && spans_ascending (end_offset (span c)) rest
  end.

Definition located_in (text : list ascii) (cs : list Construct) : bool :=
  spans_ascending 0 cs
  && forallb (fun c => end_offset (span c) <=? length text) cs.

Definition text (s : string) : list ascii := String.list_ascii_of_string s.

End SmartLogic.

(* ===================================================================== *)
(** ** Concrete inputs *)
(* ===================================================================== *)

Module Examples.
Import Api Editor.

Definition props0 : Props :=
  {| owner := "octo"; repo := "site"; filePath := "src/app.py";
     branch := Some "main"; accessToken := "gho_token";
     onSaveSuccess := true; language := "python" |}.

Definition state0 : EditorState :=
  {| content := "print(1)"; originalContent := "print(0)"; sha := "abc123";
     isLoading := false; isSaving := false; hasUnsavedChanges := true;
     isBinary := false; binaryUrl := ""; showMagicPaste := false;
     magicPasteCode := ""; magicPasteResult := None;
     isProcessingMagic := false; hasLocalBackup := false |}.

Definition world0 : World :=
  {| ui := state0;
     localStorage := {[ backupKey props0 := "print(1)" ]};
     api_token := None;
     trace := [] |}.

(** A backend that gives the same three answers whatever it is asked. *)
Definition answering (scan : FetchOutcome ScanResponse)
    (syntax : FetchOutcome SyntaxValidateResponse)
    (commit : FetchOutcome CommitResponse)
    (smart : FetchOutcome SmartReplaceResponse) : Backend :=
  {| on_scanSecrets := fun _ _ => scan;
     on_validateSyntax := fun _ _ _ => syntax;
     on_commitFile := fun _ => commit;
     on_smartReplace := fun _ => smart |}.

Definition safe : FetchOutcome ScanResponse :=
  HttpSuccess {| is_safe := true; secrets_found := 0; alerts := [] |}.

Definition unsafe : FetchOutcome ScanResponse :=
  HttpSuccess
    {| is_safe := false; secrets_found := 0; alerts := [] |}.

Definition valid : FetchOutcome SyntaxValidateResponse :=
  HttpSuccess {| is_valid := true; error_message := None;
                 error_line := None; error_column := None |}.

Definition invalid_result : SyntaxValidateResponse :=
  {| is_valid := false; error_message := Some "unexpected EOF";
     error_line := Some 1; error_column := Some 9 |}.

Definition invalid : FetchOutcome SyntaxValidateResponse :=
  HttpSuccess invalid_result.

Definition accepted (new_sha : option string) : CommitResponse :=
  {| success := true; commit_sha := Some "0123456789abcdef";
     file_sha := new_sha; commit_response_message := "ok" |}.

Definition conflict : FetchOutcome CommitResponse :=
  HttpFailure 409
    (Some (JObject [("detail", JString "Conflict: file was modified")])).

Definition no_smart : FetchOutcome SmartReplaceResponse :=
  FetchRejected "Failed to fetch".

Definition replaced : SmartReplaceResponse :=
  {| sr_success := true; updated_content := "print(2)";
     operation := "replaced"; target_name := Some "main";
     sr_message := "Replaced function main"; diff_info := None |}.

(** The Magic Paste dialog is open on a result that awaits a decision. *)
Definition world_with_result : World :=
  {| ui := put_magicPasteResult (Some replaced)
             (put_showMagicPaste true state0);
     localStorage := localStorage world0;
     api_token := Some "gho_token";
     trace := [] |}.

(** The Magic Paste dialog holds only white space: a space, a line feed, a
    tab and a no-break space (U+00A0). *)
Definition world_blank_paste : World :=
  {| ui := put_magicPasteCode
             (String " " (String "010" (String "009"
                (String "194" (String "160" "")))))
             (put_showMagicPaste true state0);
     localStorage := localStorage world0;
     api_token := None;
     trace := [] |}.

(** A file with the same function twice, and a replacement for it. *)
Definition twice : list ascii :=
  SmartLogic.unlines
    (SmartLogic.text <$>
       ["import os"; "def f():"; "    return 1"; ""; "def f():";
        "    return 2"; ""]).

Definition first_f : SmartLogic.Construct :=
  {| SmartLogic.name := "f"; SmartLogic.kind := SmartLogic.Function;
     SmartLogic.span :=
       {| SmartLogic.start_offset := 10; SmartLogic.end_offset := 31;
          SmartLogic.start_line := 2; SmartLogic.end_line := 3 |};
     SmartLogic.indent_prefix := [] |}.

Definition second_f : SmartLogic.Construct :=
  {| SmartLogic.name := "f"; SmartLogic.kind := SmartLogic.Function;
     SmartLogic.span :=
       {| SmartLogic.start_offset := 33; SmartLogic.end_offset := 54;
          SmartLogic.start_line := 5; SmartLogic.end_line := 6 |};
     SmartLogic.indent_prefix := [] |}.

Definition new_f_text : list ascii :=
  SmartLogic.unlines
    (SmartLogic.text <$> ["def f():"; "    return 3"; ""]).

Definition new_f : SmartLogic.Fragment :=
  {| SmartLogic.raw_text := new_f_text;
     SmartLogic.declared_name := Some "f";
     SmartLogic.fragment_kind := Some SmartLogic.Function |}.

End Examples.

(* ===================================================================== *)
(** ** lib/utils.ts *)
(* ===================================================================== *)

Module Utils.

Local Open Scope nat_scope.

(** Every byte of [s] is an ASCII character. [toLowerCase] below is the
    JavaScript one on such strings. *)
Definition ascii_only (s : string) : bool :=
  forallb (fun c => Ascii.nat_of_ascii c <? 128) (String.list_ascii_of_string s).

Definition lower (c : ascii) : ascii :=
  let n := Ascii.nat_of_ascii c in
  if (65 <=? n) && (n <=? 90) then Ascii.ascii_of_nat (n + 32) else c.

(** [s.toLowerCase()] *)
Fixpoint toLowerCase (s : string) : string :=
  match s with
  | EmptyString => EmptyString
  | String c rest => String (lower c) (toLowerCase rest)
  end.

(** [s.split(sep)] for a separator of one character. *)
Fixpoint split (sep : ascii) (s : string) : list string :=
  match s with
  | EmptyString => [EmptyString]
  | String c rest =>
      if Ascii.eqb c sep then EmptyString :: split sep rest
      else match split sep rest with
           | seg :: segs => String c seg :: segs
           | [] => [String c EmptyString]
           end
  end.

(** The character [c] occurs in [s]. *)
Fixpoint occurs (c : ascii) (s : string) : bool :=
  match s with
  | EmptyString => false
  | String x rest => Ascii.eqb x c || occurs c rest
  end.

(** [path.split(".").pop()?.toLowerCase() || ""] *)
Definition getFileExtension (path : string) : string :=
  match last (split "." path) with
  | Some seg => Js.or_else (toLowerCase seg) ""
  | None => ""
  end.

Definition languageEntries : list (string * string) :=
  [("py", "python"); ("js", "javascript"); ("jsx", "javascript");
   ("ts", "typescript"); ("tsx", "typescript"); ("json", "json");
   ("md", "markdown"); ("css", "css"); ("scss", "scss"); ("html", "html");
   ("xml", "xml"); ("yaml", "yaml"); ("yml", "yaml"); ("sh", "shell");
   ("bash", "shell"); ("sql", "sql"); ("graphql", "graphql"); ("go", "go");
   ("rs", "rust"); ("rb", "ruby"); ("php", "php"); ("java", "java");
   ("c", "c"); ("cpp", "cpp"); ("h", "c"); ("hpp", "cpp")].

(** The own properties of [languageMap]. *)
Definition languageMap : gmap string string := list_to_map languageEntries.

(** [languageMap] is an object literal, so a key it does not own is looked
    up on [Object.prototype]. Of the names found there only these two are
    written without capitals, and the key is lowercased before the lookup. *)
Definition inherited_keys : list string := ["constructor"; "__proto__"].

(** What [getMonacoLanguage] returns: a language name, or for an inherited
    key the object found on the prototype, which is not a string. *)
Inductive Language : Type :=
| LanguageName (name : string)
| PrototypeMember (key : string).

(** [languageMap[ext] || "plaintext"] *)
Definition getMonacoLanguage (path : string) : Language :=
  let ext := getFileExtension path in
  match languageMap !! ext with
  | Some name => LanguageName (Js.or_else name "plaintext")
  | None =>
      if bool_decide (ext ∈ inherited_keys) then PrototypeMember ext
      else LanguageName "plaintext"
  end.

Definition binaryExtensionNames : list string :=
  ["png"; "jpg"; "jpeg"; "gif"; "bmp"; "ico"; "webp"; "svg";
   "pdf"; "doc"; "docx"; "xls"; "xlsx"; "ppt"; "pptx";
   "zip"; "tar"; "gz"; "rar"; "7z";
   "exe"; "dll"; "so"; "dylib";
   "mp3"; "mp4"; "wav"; "avi"; "mov"; "mkv";
   "woff"; "woff2"; "ttf"; "eot"; "otf";
   "pyc"; "pyo"; "class"; "o"].

(** [new Set([...])] *)
Definition binaryExtensions : gset string := list_to_set binaryExtensionNames.

(** [binaryExtensions.has(getFileExtension(path))] *)
Definition isBinaryFile (path : string) : bool :=
  bool_decide (getFileExtension path ∈ binaryExtensions).

(** An optional string that counts as false: [undefined] or [""]. *)
Definition falsy (o : option string) : Prop := o = None \/ o = Some "".

(** [JSON.stringify] and [JSON.parse], as far as [storage] needs them: on
    strings. [JSON_parse] gives [None] when the text is not JSON (the call
    throws), [Some None] for [null]. *)
Class JsonCodec : Type := {
  JSON_stringify : string -> string;
  JSON_parse : string -> option (option string);
  parse_stringify : forall s, JSON_parse (JSON_stringify s) = Some (Some s);
  stringify_truthy : forall s, Js.truthy (JSON_stringify s) = true
}.

Section Storage.
Context `{JsonCodec}.

(** [storage.get(key, defaultValue)], in the browser: the item, parsed, or
    the default when there is no item, when it is empty, or when it does
    not parse. *)
Definition storage_get (ls : gmap string string) (key : string)
    (defaultValue : option string) : option string :=
  match ls !! key with
  | Some item =>
      if Js.truthy item then
        match JSON_parse item with
        | Some value => value
        | None => defaultValue
        end
      else defaultValue
  | None => defaultValue
  end.

(** [storage.set(key, value)]. [stored] tells whether [setItem] went
    through; when it throws (the quota is used up) the helper logs the error
    and goes on. *)
Definition storage_set (stored : bool) (key value : string)
    (ls : gmap string string) : gmap string string :=
  if stored then <[key := JSON_stringify value]> ls else ls.

(** [storage.remove(key)] *)
Definition storage_remove (key : string) (ls : gmap string string)
    : gmap string string :=
  delete key ls.

End Storage.

(** [debounce(func, wait)]: the closure variable [timeout], as the
    arguments of the call still waiting for its timer, if any. *)
Record Debounced (A : Type) : Type := { timeout : option A }.
Arguments timeout {A} d.

(** A call of the debounced function: the waiting timer, if any, is
    cleared, and a new one is set for these arguments. *)
Definition debounced_call {A : Type} (args : A) (d : Debounced A) : Debounced A :=
  {| timeout := Some args |}.

(** The timer runs out: [func] is called with the waiting arguments. *)
Definition timer_fires {A S : Type} (func : A -> S -> S) (d : Debounced A)
    (st : S) : Debounced A * S :=
  match timeout d with
  | Some args => ({| timeout := None |}, func args st)
  | None => (d, st)
  end.

End Utils.

(* ===================================================================== *)
(** ** components/SmartEditor.tsx: loading, editing, the local backup *)
(* ===================================================================== *)

Module Session.
Import Api Editor Utils.

Record FileContentResponse : Type := {
  fc_path : string;
  fc_content : option string;
  fc_sha : string;
  fc_size : Z;
  fc_encoding : string;
  is_binary : bool;
  mime_type : option string;
  download_url : option string
}.

Definition put_isLoading (v : bool) (s : EditorState) : EditorState :=
  {| content := content s; originalContent := originalContent s; sha := sha s;
     isLoading := v; isSaving := isSaving s;
     hasUnsavedChanges := hasUnsavedChanges s; isBinary := isBinary s;
     binaryUrl := binaryUrl s; showMagicPaste := showMagicPaste s;
     magicPasteCode := magicPasteCode s; magicPasteResult := magicPasteResult s;
     isProcessingMagic := isProcessingMagic s; hasLocalBackup := hasLocalBackup s |}.

Definition put_isBinary (v : bool) (s : EditorState) : EditorState :=
  {| content := content s; originalContent := originalContent s; sha := sha s;
     isLoading := isLoading s; isSaving := isSaving s;
     hasUnsavedChanges := hasUnsavedChanges s; isBinary := v;
     binaryUrl := binaryUrl s; showMagicPaste := showMagicPaste s;
     magicPasteCode := magicPasteCode s; magicPasteResult := magicPasteResult s;
     isProcessingMagic := isProcessingMagic s; hasLocalBackup := hasLocalBackup s |}.

Definition put_binaryUrl (v : string) (s : EditorState) : EditorState :=
  {| content := content s; originalContent := originalContent s; sha := sha s;
     isLoading := isLoading s; isSaving := isSaving s;
     hasUnsavedChanges := hasUnsavedChanges s; isBinary := isBinary s;
     binaryUrl := v; showMagicPaste := showMagicPaste s;
     magicPasteCode := magicPasteCode s; magicPasteResult := magicPasteResult s;
     isProcessingMagic := isProcessingMagic s; hasLocalBackup := hasLocalBackup s |}.

Definition put_hasLocalBackup (v : bool) (s : EditorState) : EditorState :=
  {| content := content s; originalContent := originalContent s; sha := sha s;
     isLoading := isLoading s; isSaving := isSaving s;
     hasUnsavedChanges := hasUnsavedChanges s; isBinary := isBinary s;
     binaryUrl := binaryUrl s; showMagicPaste := showMagicPaste s;
     magicPasteCode := magicPasteCode s; magicPasteResult := magicPasteResult s;
     isProcessingMagic := isProcessingMagic s; hasLocalBackup := v |}.

Definition setIsLoading v := modify_ui (put_isLoading v).
Definition setIsBinary v := modify_ui (put_isBinary v).
Definition setBinaryUrl v := modify_ui (put_binaryUrl v).
Definition setHasLocalBackup v := modify_ui (put_hasLocalBackup v).

(** [api.getFileContent(owner, repo, path, branch)]: what comes back, through
    [request]. The trace keeps the requests of the write pipeline; this read
    is not entered in it. *)
Definition api_getFileContent (reply : FetchOutcome FileContentResponse)
    : M FileContentResponse :=
  fun w => (request reply, w).

Definition load_failed_toast (message : string) : Toast :=
  {| level := Error; title := "Failed to load file"; toast_id := None;
     description := Some message; duration := None |}.

Definition backup_restored_toast : Toast :=
  {| level := Success; title := "Backup restored!"; toast_id := None;
     description := None; duration := None |}.

(** The events a handler appended to the trace. *)
Definition appended (before after : World) : list Event :=
  drop (length (trace before)) (trace after).

(** [a !== b] on strings. *)
Definition differs (a b : string) : bool := bool_decide (a <> b).

(** The reply is a file that is not binary: the branch of [loadFile] that
    fills the editor. *)
Definition delivers_text (reply : FetchOutcome FileContentResponse) : bool :=
  match reply with
  | HttpSuccess file => negb (is_binary file)
  | _ => false
  end.

Section Handlers.
Context `{JsonCodec}.
Variable props : Props.

(** [storage.get<string | null>(backupKey, null)] *)
Definition read_backup : M (option string) :=
  fun w => (Returned (storage_get (localStorage w) (backupKey props) None), w).

(** [backup && backup !== file.content] *)
Definition backup_differs (backup : option string) (file_content : option string)
    : bool :=
  match backup with
  | Some b => Js.truthy b && bool_decide (Some b <> file_content)
  | None => false
  end.

Definition loadFile (reply : FetchOutcome FileContentResponse) : M unit :=
  setIsLoading true ;;;
  api_setToken (accessToken props) ;;;
  try_catch_finally
    (file <- api_getFileContent reply ;;
     if is_binary file then
       setIsBinary true ;;;
       setBinaryUrl (Js.opt_or_else (download_url file) "")
     else
       setContent (Js.opt_or_else (fc_content file) "") ;;;
       setOriginalContent (Js.opt_or_else (fc_content file) "") ;;;
       setSha (fc_sha file) ;;;
       setIsBinary false ;;;
       setHasUnsavedChanges false ;;;
       (* Check for local backup *)
       backup <- read_backup ;;
       if backup_differs backup (fc_content file)
       then setHasLocalBackup true
       else ret tt)
    (fun err => show (load_failed_toast (message_of err)))
    (setIsLoading false).

Definition restoreBackup (r : EditorState) : M unit :=
  backup <- read_backup ;;
  match backup with
  | Some b =>
      if Js.truthy b then
        setContent b ;;;
        setHasUnsavedChanges (differs b (originalContent r)) ;;;
        setHasLocalBackup false ;;;
        show backup_restored_toast
      else ret tt
  | None => ret tt
  end.

(** The editor of one file: the world of the handlers, and the timer of
    the debounced [saveToLocalStorage] with the value it will save. *)
Record Session : Type := {
  world : World;
  saveTimer : Debounced string
}.

(** A handler that does not touch the timer. *)
Definition in_world (f : World -> World) (s : Session) : Session :=
  {| world := f (world s); saveTimer := saveTimer s |}.

(** [handleEditorChange(value)]: the editor reports [undefined] or the new
    text. *)
Definition handleEditorChange (value : option string) (s : Session) : Session :=
  match value with
  | Some v =>
      let r := ui (world s) in
      {| world :=
           snd ((setContent v ;;;
                 setHasUnsavedChanges (differs v (originalContent r)))
                  (world s));
         saveTimer := debounced_call v (saveTimer s) |}
  | None => s
  end.

(** The body of the debounced function: [storage.set(backupKey, value)]. *)
Definition save_backup (stored : bool) (value : string) (w : World) : World :=
  {| ui := ui w;
     localStorage := storage_set stored (backupKey props) value (localStorage w);
     api_token := api_token w;
     trace := trace w |}.

(** Thirty seconds after the last change the timer runs out. *)
Definition save_timer_fires (stored : bool) (s : Session) : Session :=
  let '(d, w) := timer_fires (save_backup stored) (saveTimer s) (world s) in
  {| world := w; saveTimer := d |}.

(** The effect of [loadFile] when the backend answers [reply]. *)
Definition load (reply : FetchOutcome FileContentResponse) (w : World) : World :=
  snd (loadFile reply w).

(** A click on Restore Backup. *)
Definition restore (w : World) : World := click restoreBackup w.

(** The user types [values], one change after the other, faster than the
    timer. *)
Definition type_values (values : list string) (s : Session) : Session :=
  foldl (fun s v => handleEditorChange (Some v) s) s values.

End Handlers.

(** *** A Safe Push with the page going on *)

Section Interleaved.

Variable server : Backend.
Variable props : Props.

(** The editor stays enabled while [handleSafePush] waits for an answer.
    [meanwhile k] is what the other handlers of the page do to the world
    while the [k]-th request of the attempt is awaited. *)
Variable meanwhile : nat -> World -> World.

(** [await m], as the [k]-th [await] of the handler: the request of [m]
    goes out, the page goes on, and the handler resumes with the answer. *)
Definition await {T : Type} (k : nat) (m : M T) : M T :=
  fun w => let '(answer, w') := m w in (answer, meanwhile k w').

(** The [try] block of [handleSafePush], as [Editor.push_body] has it, with
    its three [await]s. [r] still holds the values of the render in which
    the button was clicked. *)
Definition push_body_during (r : EditorState) : M unit :=
  api_setToken (accessToken props) ;;;
  (* Step 1: Scan for secrets *)
  show (loading "Scanning for secrets...") ;;;
  scanResult <-
    await 0 (api_scanSecrets server (content r) (Some (filePath props))) ;;
  if negb (is_safe scanResult) then
    show (secrets_toast scanResult)
  else
    (* Step 2: Validate syntax *)
    show (loading "Validating syntax...") ;;;
    syntaxResult <-
      await 1 (api_validateSyntax server (content r) (language props)
                 (Some (filePath props))) ;;
    if negb (is_valid syntaxResult) then
      show (syntax_toast syntaxResult)
    else
      (* Step 3: Commit with optimistic locking *)
      show (loading "Pushing to GitHub...") ;;;
      commitResult <- await 2 (api_commitFile server (commit_request props r)) ;;
      if success commitResult then
        show (success_toast commitResult) ;;;
        setSha (Js.opt_or_else (file_sha commitResult) (sha r)) ;;;
        setOriginalContent (content r) ;;;
        setHasUnsavedChanges false ;;;
        Editor.storage_remove (backupKey props) ;;;
        (if onSaveSuccess props then emit SaveSuccessCalled else ret tt)
      else ret tt.

Definition handleSafePush_during (r : EditorState) : M unit :=
  setIsSaving true ;;;
  try_catch_finally (push_body_during r) push_catch (setIsSaving false).

(** One Safe Push attempt, from the click in world [w] to the end of the
    handler, with the page going on in between. *)
Definition safe_push_during (w : World) : World :=
  snd (handleSafePush_during (ui w) w).

End Interleaved.

(** The unsaved-changes flag tells whether the content differs from the
    original. *)
Definition flag_tells_difference (st : EditorState) : Prop :=
  hasUnsavedChanges st = differs (content st) (originalContent st).

(** A stand-in for the JSON of the browser that keeps the two laws: a text
    is stored behind a quote mark. *)
Definition quoting : Utils.JsonCodec :=
  {| Utils.JSON_stringify := fun s => String "034" s;
     Utils.JSON_parse := fun t =>
       match t with
       | String c rest => if Ascii.eqb c "034" then Some (Some rest) else None
       | EmptyString => None
       end;
     Utils.parse_stringify := fun s => eq_refl;
     Utils.stringify_truthy := fun s => eq_refl |}.

End Session.

(* ===================================================================== *)
(** ** middleware.ts *)
(* ===================================================================== *)

Module Middleware.

Inductive Response : Type :=
| Next
    (* [NextResponse.next()] *)
| RedirectToLogin (callbackUrl : string).
    (* [NextResponse.redirect] to ["/"] with [callbackUrl] set *)

Definition publicRoutes : list string := ["/"; "/api/auth"].

(** [pathname.startsWith(route)] *)
Definition startsWith (pathname route : string) : bool :=
  String.prefix route pathname.

(** [publicRoutes.some((route) => pathname === route ||
    pathname.startsWith(route))] *)
Definition isPublicRoute (pathname : string) : bool :=
  existsb (fun route => bool_decide (pathname = route) || startsWith pathname route)
    publicRoutes.

(** The callback given to [auth]: [isLoggedIn] is [!!req.auth], [pathname]
    the path of the requested URL. *)
Definition middleware (isLoggedIn : bool) (pathname : string) : Response :=
  if negb isLoggedIn && negb (isPublicRoute pathname)
  then RedirectToLogin pathname
  else Next.

End Middleware.

(* ===================================================================== *)
(** ** components/QuickActions.tsx *)
(* ===================================================================== *)

Module QuickActions.
Import Api Editor.

Record CommandResponse : Type := {
  cmd_success : bool;
  exit_code : Z;
  stdout : string;
  stderr : string;
  command : string;
  duration_seconds : QArith_base.Q
}.

Record Props : Type := {
  projectPath : option string;
  accessToken : string
}.

Record State : Type := {
  isRunning : bool;
  showOutput : bool;
  commandOutput : option CommandResponse;
  currentAction : string
}.

(** The two endpoint methods the component uses, with the request body. *)
Inductive SystemCall : Type :=
| InstallDependencies (project_path : string) (package_manager : option string)
| RunCommand (cmd : string) (working_directory : option string) (timeout : Z).

Inductive Event : Type :=
| Requested (authorization : option string) (call : SystemCall)
| Toasted (t : Toast).

Record World : Type := {
  ui : State;
  api_token : option string;
  trace : list Event
}.

Definition with_ui (f : State -> State) (w : World) : World :=
  {| ui := f (ui w); api_token := api_token w; trace := trace w |}.

Definition with_event (e : Event) (w : World) : World :=
  {| ui := ui w; api_token := api_token w; trace := trace w ++ [e] |}.

Definition with_token (token : string) (w : World) : World :=
  {| ui := ui w; api_token := Some token; trace := trace w |}.

Definition put_isRunning (v : bool) (s : State) : State :=
  {| isRunning := v; showOutput := showOutput s;
     commandOutput := commandOutput s; currentAction := currentAction s |}.

Definition put_showOutput (v : bool) (s : State) : State :=
  {| isRunning := isRunning s; showOutput := v;
     commandOutput := commandOutput s; currentAction := currentAction s |}.

Definition put_commandOutput (v : option CommandResponse) (s : State) : State :=
  {| isRunning := isRunning s; showOutput := showOutput s;
     commandOutput := v; currentAction := currentAction s |}.

Definition put_currentAction (v : string) (s : State) : State :=
  {| isRunning := isRunning s; showOutput := showOutput s;
     commandOutput := commandOutput s; currentAction := v |}.

Definition plain_toast (l : ToastLevel) (t : string) (d : option string) : Toast :=
  {| level := l; title := t; toast_id := None; description := d;
     duration := None |}.

(** The result put on display when the request throws. *)
Definition failed_output (cmd message : string) : CommandResponse :=
  {| cmd_success := false; exit_code := -1; stdout := ""; stderr := message;
     command := cmd; duration_seconds := QArith_base.Qmake 0 1 |}.

(** [api.installDependencies(projectPath)] for the action ["install"],
    [api.runCommand(command, projectPath)] (with its default timeout)
    otherwise. *)
Definition system_call (action cmd project : string) : SystemCall :=
  if bool_decide (action = "install")
  then InstallDependencies project None
  else RunCommand cmd (Some project) 300.

(** [runAction(action, command)], statement by statement; [reply] is what
    comes back for the one request it may send. *)
Definition runAction (props : Props) (action cmd : string)
    (reply : FetchOutcome CommandResponse) (w : World) : World :=
  let project := Js.opt_or_else (projectPath props) "" in
  if negb (Js.truthy project) then
    with_event (Toasted (plain_toast Error "No project selected" None)) w
  else
    let w := with_ui (put_isRunning true) w in
    let w := with_ui (put_currentAction action) w in
    let w := with_ui (put_showOutput true) w in
    let w := with_ui (put_commandOutput None) w in
    let w := (* try *)
      let w := with_token (accessToken props) w in
      let w :=
        with_event
          (Requested (authorization_header (api_token w))
             (system_call action cmd project)) w in
      match request reply with
      | Returned result =>
          let w := with_ui (put_commandOutput (Some result)) w in
          if cmd_success result then
            with_event
              (Toasted (plain_toast Success
                          (action +:+ " completed successfully") None)) w
          else
            with_event
              (Toasted (plain_toast Error (action +:+ " failed")
                          (Some ("Exit code: "
                                 +:+ Js.of_number (exit_code result))))) w
      | Threw err => (* catch *)
          let w :=
            with_event
              (Toasted (plain_toast Error (action +:+ " failed")
                          (Some (message_of err)))) w in
          with_ui (put_commandOutput
                     (Some (failed_output cmd (message_of err)))) w
      end in
    (* finally *)
    with_ui (put_isRunning false) w.

End QuickActions.

(* ===================================================================== *)
(** ** components/AIChat.tsx *)
(* ===================================================================== *)

Module AIChat.
Import Api Editor.

Inductive Role : Type := User | Assistant | System.

Record ChatMessage : Type := {
  role : Role;
  msg_content : string
}.

(** [interface Message extends ChatMessage]; a timestamp is a number of
    milliseconds. *)
Record Message : Type := {
  id : string;
  message : ChatMessage;
  timestamp : Z
}.

Record ChatUsage : Type := {
  prompt_tokens : Z;
  completion_tokens : Z;
  total_tokens : Z
}.

Record ChatResponse : Type := {
  chat_content : string;
  model : string;
  usage : option ChatUsage
}.

Record Props : Type := {
  accessToken : string;
  currentFileContent : option string;
  currentLanguage : option string;
  onInsertCode : bool
}.

Record State : Type := {
  messages : list Message;
  input : string;
  isLoading : bool;
  isConfigured : option bool;
  copiedId : option string
}.

(** What [crypto.randomUUID()] and [new Date()] give during one call of
    [sendMessage]. *)
Record Fresh : Type := {
  user_id : string;
  user_time : Z;
  assistant_id : string;
  assistant_time : Z
}.

Inductive Event : Type :=
| ChatRequested (authorization : option string) (history : list ChatMessage)
    (context language : option string)
| Toasted (t : Toast)
| InputFocused.

Record World : Type := {
  ui : State;
  api_token : option string;
  trace : list Event
}.

Definition with_ui (f : State -> State) (w : World) : World :=
  {| ui := f (ui w); api_token := api_token w; trace := trace w |}.

Definition with_event (e : Event) (w : World) : World :=
  {| ui := ui w; api_token := api_token w; trace := trace w ++ [e] |}.

Definition with_token (token : string) (w : World) : World :=
  {| ui := ui w; api_token := Some token; trace := trace w |}.

(** [setMessages((prev) => [...prev, m])] *)
Definition push_message (m : Message) (s : State) : State :=
  {| messages := messages s ++ [m]; input := input s; isLoading := isLoading s;
     isConfigured := isConfigured s; copiedId := copiedId s |}.

Definition put_input (v : string) (s : State) : State :=
  {| messages := messages s; input := v; isLoading := isLoading s;
     isConfigured := isConfigured s; copiedId := copiedId s |}.

Definition put_isLoading (v : bool) (s : State) : State :=
  {| messages := messages s; input := input s; isLoading := v;
     isConfigured := isConfigured s; copiedId := copiedId s |}.

Definition send_failed_toast (m : string) : Toast :=
  {| level := Error; title := "Failed to send message"; toast_id := None;
     description := Some m; duration := None |}.

(** [sendMessage()], statement by statement. [r] holds the state values of
    the render whose closure the handler is; [reply] is what comes back for
    the chat request. *)
Definition sendMessage (props : Props) (fresh : Fresh)
    (reply : FetchOutcome ChatResponse) (r : State) (w : World) : World :=
  if negb (Js.truthy (Js.trim (input r))) || isLoading r then w
  else
    let userMessage :=
      {| id := user_id fresh;
         message := {| role := User; msg_content := Js.trim (input r) |};
         timestamp := user_time fresh |} in
    let w := with_ui (push_message userMessage) w in
    let w := with_ui (put_input "") w in
    let w := with_ui (put_isLoading true) w in
    let w := (* try *)
      let w := with_token (accessToken props) w in
      (* Build message history for API *)
      let chatHistory :=
        (message <$> messages r)
        ++ [{| role := User; msg_content := msg_content (message userMessage) |}] in
      let w :=
        with_event
          (ChatRequested (authorization_header (api_token w)) chatHistory
             (currentFileContent props) (currentLanguage props)) w in
      match request reply with
      | Returned response =>
          let assistantMessage :=
            {| id := assistant_id fresh;
               message := {| role := Assistant;
                             msg_content := chat_content response |};
               timestamp := assistant_time fresh |} in
          with_ui (push_message assistantMessage) w
      | Threw err => (* catch *)
          with_event (Toasted (send_failed_toast (message_of err))) w
      end in
    (* finally *)
    let w := with_ui (put_isLoading false) w in
    with_event InputFocused w.

(** A click on Send, or Enter without Shift. *)
Definition send (props : Props) (fresh : Fresh)
    (reply : FetchOutcome ChatResponse) (w : World) : World :=
  sendMessage props fresh reply (ui w) w.

(** *** [extractCodeBlocks] *)

Definition BACKTICK : ascii := "`"%char.
Definition fence : string := "```".

(** [A-Za-z0-9_], the class [\w]. *)
Definition is_word (c : ascii) : bool :=
  let n := Ascii.nat_of_ascii c in
  ((48 <=? n) && (n <=? 57) || (65 <=? n) && (n <=? 90)
   || (97 <=? n) && (n <=? 122) || (n =? 95))%nat.

(** [s] without its first [n] characters. *)
Fixpoint string_drop (n : nat) (s : string) : string :=
  match n, s with
  | O, _ => s
  | S n', String _ rest => string_drop n' rest
  | S _, EmptyString => EmptyString
  end.

(** The text before the first fence, and the text after it. *)
Fixpoint cut_at_fence (s : string) : option (string * string) :=
  match s with
  | EmptyString => None
  | String c rest =>
      if String.prefix fence s then Some (EmptyString, string_drop 2 rest)
      else
        match cut_at_fence rest with
        | Some (before, after) => Some (String c before, after)
        | None => None
        end
  end.

(** [[\w]*], as much as there is. *)
Fixpoint skip_word (s : string) : string :=
  match s with
  | String c rest => if is_word c then skip_word rest else s
  | EmptyString => EmptyString
  end.

(** [\n?] *)
Definition skip_newline (s : string) : string :=
  match s with
  | String c rest => if Ascii.eqb c "010"%char then rest else s
  | EmptyString => EmptyString
  end.

(** The loop over [codeBlockRegex.exec(content)]: each round finds the next
    opening fence, passes the language tag and one line feed, takes the
    text up to the next fence, trimmed, and goes on behind that fence. A
    round uses up at least six characters, so [fuel] rounds are enough for
    a text of [fuel] characters. *)
Fixpoint extract (fuel : nat) (s : string) : list string :=
  match fuel with
  | O => []
  | S fuel' =>
      match cut_at_fence s with
      | None => []
      | Some (_, opened) =>
          match cut_at_fence (skip_newline (skip_word opened)) with
          | None => []
          | Some (body, rest) => Js.trim body :: extract fuel' rest
          end
      end
  end.

Definition extractCodeBlocks (content : string) : list string :=
  extract (String.length content) content.

End AIChat.

(* ===================================================================== *)
(** ** components/FileExplorer.tsx *)
(* ===================================================================== *)

Module FileExplorer.
Import Api.

Inductive FileType : Type := File | Dir.

Global Instance FileType_eq_dec : EqDecision FileType.
Proof. solve_decision. Defined.

Record FileInfo : Type := {
  name : string;
  path : string;
  type : FileType;
  size : option Z;
  file_sha : option string;
  download_url : option string
}.

(** [interface TreeNode extends FileInfo]. [children] is [undefined] until
    the directory has been listed; [isExpanded] is set on every node the
    component builds; [isLoading] is never assigned. *)
#[local] Unset Elimination Schemes.
Inductive TreeNode : Type :=
| Node (info : FileInfo) (children : option (list TreeNode)) (isExpanded : bool).
#[local] Set Elimination Schemes.

Definition info_of (n : TreeNode) : FileInfo :=
  match n with Node info _ _ => info end.
Definition children_of (n : TreeNode) : option (list TreeNode) :=
  match n with Node _ children _ => children end.
Definition expanded_of (n : TreeNode) : bool :=
  match n with Node _ _ isExpanded => isExpanded end.

(** [contents.map((item) => ({ ...item, isExpanded: false }))] *)
Definition fresh_nodes (contents : list FileInfo) : list TreeNode :=
  (fun item => Node item None false) <$> contents.

Section Toggle.

(** The directory to toggle, and what the backend answers to the listing
    requests of this toggle, numbered in the order they go out. *)
Variable target : string.
Variable listing : nat -> FetchOutcome (list FileInfo).

(** [node.path === path && node.type === "dir"] *)
Definition is_target (info : FileInfo) : bool :=
  bool_decide (path info = target) && bool_decide (type info = Dir).

(** The callback of [nodes.map] in [updateTree], and [updateTree] itself as
    the inner loop. Every listing request goes out while the tree is walked,
    before any answer is in; [n] counts them. The result is [None] when one
    of the awaited listings throws: [Promise.all] rejects. *)
Fixpoint updateNode (node : TreeNode) (n : nat) : option TreeNode * nat :=
  match node with
  | Node info children isExpanded =>
      if is_target info then
        if isExpanded then
          (* Collapse *)
          (Some (Node info children false), n)
        else
          (* Expand - load if needed *)
          match children with
          | None =>
              (match request (listing n) with
               | Returned contents =>
                   Some (Node info (Some (fresh_nodes contents)) true)
               | Threw _ => None
               end, S n)
          | Some _ => (Some (Node info children true), n)
          end
      else
        match children with
        | Some nodes =>
            let '(updated, n') :=
              (fix updateTree (nodes : list TreeNode) (n : nat)
                 : option (list TreeNode) * nat :=
                 match nodes with
                 | [] => (Some [], n)
                 | node :: rest =>
                     let '(node', n1) := updateNode node n in
                     let '(rest', n2) := updateTree rest n1 in
                     (match node', rest' with
                      | Some x, Some xs => Some (x :: xs)
                      | _, _ => None
                      end, n2)
                 end) nodes n in
            (match updated with
             | Some nodes' => Some (Node info (Some nodes') isExpanded)
             | None => None
             end, n')
        | None => (Some node, n)
        end
  end.

Fixpoint updateTree (nodes : list TreeNode) (n : nat)
    : option (list TreeNode) * nat :=
  match nodes with
  | [] => (Some [], n)
  | node :: rest =>
      let '(node', n1) := updateNode node n in
      let '(rest', n2) := updateTree rest n1 in
      (match node', rest' with
       | Some x, Some xs => Some (x :: xs)
       | _, _ => None
       end, n2)
  end.

(** [toggleDirectory(path)]: the new tree and the number of listing
    requests sent. When a listing throws, [setTree] is not reached and the
    tree stays. *)
Definition toggleDirectory (tree : list TreeNode) : list TreeNode * nat :=
  match updateTree tree 0 with
  | (Some tree', n) => (tree', n)
  | (None, n) => (tree, n)
  end.

End Toggle.

(** Some directory node of the trees carries the path [target]. *)
Fixpoint names_target (target : string) (node : TreeNode) : bool :=
  match node with
  | Node info children _ =>
      is_target target info
      || match children with
         | Some nodes => existsb (names_target target) nodes
         | None => false
         end
  end.

(** Every directory node with the path [target] has been listed. *)
Fixpoint target_listed (target : string) (node : TreeNode) : bool :=
  match node with
  | Node info children _ =>
      match children with
      | Some nodes => forallb (target_listed target) nodes
      | None => negb (is_target target info)
      end
  end.

End FileExplorer.

(* ===================================================================== *)
(** ** app/dashboard/page.tsx *)
(* ===================================================================== *)

Module Dashboard.

(** [const [owner, repoName] = selectedRepo?.full_name?.split("/") || []] *)
Definition owner_and_repo (full_name : option string)
    : option string * option string :=
  match full_name with
  | Some n =>
      let parts := Utils.split "/" n in
      (parts !! 0%nat, parts !! 1%nat)
  | None => (None, None)
  end.

(** The props the page gives the editor of [file]. The editor reads [owner]
    and [repo] only inside template literals, where [undefined] prints as
    that word; the page passes no [branch] and no [onSaveSuccess];
    [language] is what the editor works out from the path of the file. *)
Definition editor_props (full_name : option string) (file token language : string)
    : Editor.Props :=
  let '(owner, repoName) := owner_and_repo full_name in
  {| Editor.owner := Js.of_opt_string owner;
     Editor.repo := Js.of_opt_string repoName;
     Editor.filePath := file;
     Editor.branch := None;
     Editor.accessToken := token;
     Editor.onSaveSuccess := false;
     Editor.language := language |}.

End Dashboard.

(* ===================================================================== *)
(** ** auth.ts *)
(* ===================================================================== *)

Module Auth.

(** The [account] NextAuth hands to the [jwt] callback at sign-in, as far as
    the callback reads it. *)
Record Account : Type := {
  access_token : option string
}.

(** [interface JWT { accessToken?: string }] *)
Record JWT : Type := {
  jwt_accessToken : option string
}.

(** [interface Session { accessToken: string }], beside what NextAuth puts
    there. *)
Record Session : Type := {
  expires : string;
  accessToken : option string
}.

(** The [jwt] callback; [account] is there only in the call at sign-in. *)
Definition jwt (token : JWT) (account : option Account) : JWT :=
  match account with
  | Some a => {| jwt_accessToken := access_token a |}
  | None => token
  end.

(** The [session] callback. *)
Definition session (s : Session) (token : JWT) : Session :=
  {| expires := expires s; accessToken := jwt_accessToken token |}.

(** The token after a run of [jwt] calls, oldest first. *)
Definition jwt_calls (token : JWT) (accounts : list (option Account)) : JWT :=
  foldl jwt token accounts.

End Auth.

(* ===================================================================== *)
(** ** More concrete inputs *)
(* ===================================================================== *)

Module MoreExamples.
Import Api Editor Examples.

Definition unaccepted : CommitResponse :=
  {| success := false; commit_sha := None; file_sha := None;
     commit_response_message := "nothing to commit" |}.

Definition declining : Backend :=
  answering safe valid (HttpSuccess unaccepted) no_smart.

Definition replacing : Backend :=
  answering safe valid conflict (HttpSuccess replaced).

(** The browser holds a backup of [print(2)], written by [Session.quoting]. *)
Definition world_with_backup : World :=
  {| ui := state0;
     localStorage :=
       {[ backupKey props0 := @Utils.JSON_stringify Session.quoting "print(2)" ]};
     api_token := None;
     trace := [] |}.

Definition committing : Backend :=
  answering safe valid (HttpSuccess (accepted (Some "def456"))) no_smart.

(** The Magic Paste dialog holds a snippet. *)
Definition world_with_paste : World :=
  {| ui := put_magicPasteCode "def main(): pass" (put_showMagicPaste true state0);
     localStorage := localStorage world0;
     api_token := None;
     trace := [] |}.

Definition text_file : Session.FileContentResponse :=
  {| Session.fc_path := "src/app.py";
     Session.fc_content := Some "print(0)";
     Session.fc_sha := "abc123";
     Session.fc_size := 8;
     Session.fc_encoding := "utf-8";
     Session.is_binary := false;
     Session.mime_type := None;
     Session.download_url := None |}.

Definition session0 : Session.Session :=
  {| Session.world := world0;
     Session.saveTimer := {| Utils.timeout := None |} |}.

(** While the scan of a push is awaited, the user types [print(3)]. *)
Definition typing_during_scan (k : nat) (w : World) : World :=
  match k with
  | O => Session.world
           (Session.handleEditorChange (Some "print(3)")
              {| Session.world := w;
                 Session.saveTimer := {| Utils.timeout := None |} |})
  | S _ => w
  end.

Definition no_project : QuickActions.Props :=
  {| QuickActions.projectPath := None;
     QuickActions.accessToken := "gho_token" |}.

Definition some_project : QuickActions.Props :=
  {| QuickActions.projectPath := Some "octo/site";
     QuickActions.accessToken := "gho_token" |}.

Definition idle_actions : QuickActions.World :=
  {| QuickActions.ui :=
       {| QuickActions.isRunning := false; QuickActions.showOutput := false;
          QuickActions.commandOutput := None;
          QuickActions.currentAction := "" |};
     QuickActions.api_token := None;
     QuickActions.trace := [] |}.

Definition chat_props : AIChat.Props :=
  {| AIChat.accessToken := "gho_token";
     AIChat.currentFileContent := Some "print(1)";
     AIChat.currentLanguage := Some "py";
     AIChat.onInsertCode := true |}.

Definition chat_fresh : AIChat.Fresh :=
  {| AIChat.user_id := "id-1"; AIChat.user_time := 1000;
     AIChat.assistant_id := "id-2"; AIChat.assistant_time := 2000 |}.

Definition chat_with_input : AIChat.World :=
  {| AIChat.ui :=
       {| AIChat.messages := []; AIChat.input := " explain this ";
          AIChat.isLoading := false; AIChat.isConfigured := Some true;
          AIChat.copiedId := None |};
     AIChat.api_token := None;
     AIChat.trace := [] |}.

Definition chat_answer : FetchOutcome AIChat.ChatResponse :=
  HttpSuccess {| AIChat.chat_content := "It prints 1.";
                 AIChat.model := "llama3-70b"; AIChat.usage := None |}.

Definition dir_info (p : string) : FileExplorer.FileInfo :=
  {| FileExplorer.name := p; FileExplorer.path := p;
     FileExplorer.type := FileExplorer.Dir; FileExplorer.size := None;
     FileExplorer.file_sha := None; FileExplorer.download_url := None |}.

Definition file_info (p : string) : FileExplorer.FileInfo :=
  {| FileExplorer.name := p; FileExplorer.path := p;
     FileExplorer.type := FileExplorer.File; FileExplorer.size := Some 10;
     FileExplorer.file_sha := Some "abc123";
     FileExplorer.download_url := None |}.

(** A listed directory [src] with one file, and a file beside it. *)
Definition small_tree : list FileExplorer.TreeNode :=
  [FileExplorer.Node (dir_info "src")
     (Some [FileExplorer.Node (file_info "src/app.py") None false]) true;
   FileExplorer.Node (file_info "README.md") None false].

Definition no_listing : nat -> FetchOutcome (list FileExplorer.FileInfo) :=
  fun _ => FetchRejected "Failed to fetch".

End MoreExamples.

(* ===================================================================== *)
(** ** Facts about the commit gate *)
(* ===================================================================== *)

Ltac run_handler :=
  unfold Editor.safe_push, Editor.click, Editor.handleSafePush,
    Editor.handleMagicPaste, Editor.acceptMagicPaste, Editor.rejectMagicPaste,
    Editor.try_catch_finally, Editor.push_body, Editor.push_catch,
    Editor.magic_catch, Editor.api_scanSecrets, Editor.api_validateSyntax,
    Editor.api_commitFile, Editor.api_smartReplace, Editor.call, Editor.bind,
    Editor.ret, Editor.setIsSaving, Editor.setSha, Editor.setOriginalContent,
    Editor.setHasUnsavedChanges, Editor.setContent, Editor.setShowMagicPaste,
    Editor.setMagicPasteCode, Editor.setMagicPasteResult,
    Editor.setIsProcessingMagic, Editor.storage_remove, Editor.api_setToken,
    Editor.show, Editor.emit, Editor.modify_ui, Editor.with_event,
    Editor.with_ui;
  simpl.

(** Case analysis on everything the commit gate still branches on. *)
Ltac gate_split :=
  repeat first
    [ match goal with
      | |- context [Api.on_scanSecrets ?s ?a ?b] =>
          destruct (Api.on_scanSecrets s a b) eqn:?
      | |- context [Api.on_validateSyntax ?s ?a ?b ?c] =>
          destruct (Api.on_validateSyntax s a b c) eqn:?
      | |- context [Api.on_commitFile ?s ?a] =>
          destruct (Api.on_commitFile s a) eqn:?
      | |- context [Api.is_safe ?x] => destruct (Api.is_safe x) eqn:?
      | |- context [Api.is_valid ?x] => destruct (Api.is_valid x) eqn:?
      | |- context [Api.success ?x] => destruct (Api.success x) eqn:?
      | |- context [Editor.onSaveSuccess ?x] => destruct (Editor.onSaveSuccess x) eqn:?
      | |- context [if Editor.mentions_conflict ?x then _ else _] =>
          destruct (Editor.mentions_conflict x) eqn:?
      end; simpl in * ];
  rewrite <- ?app_assoc.

Ltac gate_cases := run_handler; gate_split.

Section SafePush.
Import Api Editor.

Variable server : Backend.
Variable props : Props.

Lemma calls_app (t1 t2 : list Event) : calls (t1 ++ t2) = calls t1 ++ calls t2.
Proof. unfold calls. apply omap_app. Qed.

Lemma toasts_app (t1 t2 : list Event) : toasts (t1 ++ t2) = toasts t1 ++ toasts t2.
Proof. unfold toasts. apply omap_app. Qed.

Lemma issued_app (w w' : World) (evs : list Event) :
  trace w' = trace w ++ evs -> issued w w' = calls evs.
Proof.
  intros E. unfold issued. rewrite E, calls_app. apply drop_app_length.
Qed.

Lemma shown_app (w w' : World) (evs : list Event) :
  trace w' = trace w ++ evs -> shown w w' = toasts evs.
Proof.
  intros E. unfold shown. rewrite E, toasts_app. apply drop_app_length.
Qed.

(** The requests of one attempt: the scan; the validation if the scan
    passed; the commit if the validation passed too. *)
Lemma safe_push_calls (w : World) :
  issued w (safe_push server props w) =
    ScanSecrets (content (ui w)) (Some (filePath props)) ::
    (if scan_passed server props (ui w) then
       ValidateSyntax (content (ui w)) (language props) (Some (filePath props)) ::
       (if syntax_passed server props (ui w)
        then [CommitFile (commit_request props (ui w))] else [])
     else []).
Proof.
  assert (exists evs,
    trace (safe_push server props w) = trace w ++ evs
    /\ calls evs =
       ScanSecrets (content (ui w)) (Some (filePath props)) ::
       (if scan_passed server props (ui w) then
          ValidateSyntax (content (ui w)) (language props)
            (Some (filePath props)) ::
          (if syntax_passed server props (ui w)
           then [CommitFile (commit_request props (ui w))] else [])
        else [])) as (evs & Htrace & Hcalls).
  { unfold scan_passed, syntax_passed. gate_cases.
    all: eexists; split; reflexivity. }
  rewrite <- Hcalls. by apply issued_app.
Qed.

End SafePush.

(** Reads the requests and toasts off a trace that extends the old one. *)
Ltac read_trace :=
  unfold Editor.final_toast, Editor.shown, Editor.issued; simpl;
  rewrite <- ?app_assoc; rewrite ?toasts_app, ?calls_app;
  rewrite <- ?app_assoc; rewrite ?drop_app_length; simpl.

Section SafePushClaims.
Import Api Editor.

(** C1. When the secret scan answers [is_safe = false], the attempt issues
    the scan request and nothing else: no syntax validation, no commit. The
    number of findings and the alerts are arbitrary, so the block depends on
    the flag alone; the toast left on screen is the security alert. *)
Theorem unsafe_scan_blocks_push (server : Backend) (props : Props) (w : World)
    (n : Z) (found : list SecretAlert) :
  let scanResult := {| is_safe := false; secrets_found := n; alerts := found |} in
  on_scanSecrets server (content (ui w)) (Some (filePath props))
    = HttpSuccess scanResult ->
  issued w (safe_push server props w)
    = [ScanSecrets (content (ui w)) (Some (filePath props))]
  /\ Forall (fun c => is_validate c = false /\ is_commit c = false)
       (issued w (safe_push server props w))
  /\ final_toast w (safe_push server props w) = Some (secrets_toast scanResult).
Proof.
  intros scanResult Hscan.
  assert (issued w (safe_push server props w)
          = [ScanSecrets (content (ui w)) (Some (filePath props))]) as Hcalls.
  { rewrite safe_push_calls. unfold scan_passed. by rewrite Hscan. }
  rewrite Hcalls. split; [done|]. split.
  - by repeat constructor.
  - run_handler. rewrite Hscan. simpl. by read_trace.
Qed.

(** C2. An attempt issues its requests in the order scan, validation,
    commit, and stops at the first step that does not pass: the validation
    is requested only after the scan passed, the commit only after the
    validation passed. In particular an [is_valid = false] answer means no
    commit request in that attempt. *)
Theorem safe_push_order (server : Backend) (props : Props) (w : World) :
  issued w (safe_push server props w) =
    ScanSecrets (content (ui w)) (Some (filePath props)) ::
    (if scan_passed server props (ui w) then
       ValidateSyntax (content (ui w)) (language props) (Some (filePath props)) ::
       (if syntax_passed server props (ui w)
        then [CommitFile (commit_request props (ui w))] else [])
     else [])
  /\ (forall syntaxResult,
        on_validateSyntax server (content (ui w)) (language props)
          (Some (filePath props)) = HttpSuccess syntaxResult ->
        is_valid syntaxResult = false ->
        Forall (fun c => is_commit c = false) (issued w (safe_push server props w))).
Proof.
  split; [apply safe_push_calls|].
  intros syntaxResult Hsyntax Hinvalid.
  rewrite safe_push_calls. unfold syntax_passed. rewrite Hsyntax, Hinvalid.
  destruct (scan_passed server props (ui w)); by repeat constructor.
Qed.

(** C5. Take an attempt whose commit fails with a fingerprint mismatch and
    an attempt that the syntax validator rejects. The first ends on the
    merge-conflict toast (refresh and try again) when the error message
    mentions a conflict, and on the push-failed toast with that message
    otherwise; the second ends on the syntax-error toast; the two toasts
    always differ. *)
Theorem mismatch_shown_apart_from_syntax_error
    (server : Backend) (props : Props) (w : World) (e : Thrown)
    (server' : Backend) (props' : Props) (w' : World)
    (syntaxResult : SyntaxValidateResponse) :
  scan_passed server props (ui w) = true ->
  syntax_passed server props (ui w) = true ->
  request (on_commitFile server (commit_request props (ui w))) = Threw e ->
  is_mismatch e = true ->
  scan_passed server' props' (ui w') = true ->
  on_validateSyntax server' (content (ui w')) (language props')
    (Some (filePath props')) = HttpSuccess syntaxResult ->
  is_valid syntaxResult = false ->
  final_toast w (safe_push server props w)
    = Some (if mentions_conflict (message_of e)
            then conflict_toast else failed_toast (message_of e))
  /\ final_toast w' (safe_push server' props' w') = Some (syntax_toast syntaxResult)
  /\ final_toast w (safe_push server props w)
     <> final_toast w' (safe_push server' props' w').
Proof.
  intros Hscan Hsyntax Hcommit _ Hscan' Hsyntax' Hinvalid.
  assert (final_toast w (safe_push server props w)
          = Some (if mentions_conflict (message_of e)
                  then conflict_toast else failed_toast (message_of e))) as Hm.
  { clear Hscan' Hsyntax' Hinvalid.
    unfold scan_passed, syntax_passed, request in *.
    revert Hscan Hsyntax Hcommit. gate_cases.
    all: intros; simplify_eq/=.
    all: read_trace; congruence. }
  assert (final_toast w' (safe_push server' props' w')
          = Some (syntax_toast syntaxResult)) as Hs.
  { clear Hm Hscan Hsyntax Hcommit.
    unfold scan_passed in *. revert Hscan'. run_handler.
    rewrite Hsyntax'. simpl. rewrite Hinvalid. simpl.
    destruct (on_scanSecrets server' _ _) as [?|? ?|sr|?]; simpl; try done.
    intros ->. simpl. by read_trace. }
  rewrite Hm, Hs. repeat split.
  destruct (mentions_conflict (message_of e)); intros [=].
Qed.

(** What an accepted commit does to the stored fingerprint. *)
Lemma accepted_commit_sha (server : Backend) (props : Props) (w : World)
    (commitResult : CommitResponse) :
  scan_passed server props (ui w) = true ->
  syntax_passed server props (ui w) = true ->
  on_commitFile server (commit_request props (ui w)) = HttpSuccess commitResult ->
  success commitResult = true ->
  sha (ui (safe_push server props w))
    = Js.opt_or_else (file_sha commitResult) (sha (ui w)).
Proof.
  intros Hscan Hsyntax Hcommit Hok.
  unfold scan_passed, syntax_passed in *.
  revert Hscan Hsyntax. run_handler. rewrite Hcommit. gate_split.
  all: intros; simplify_eq/=; done.
Qed.

(** C6. When the backend accepts a commit and returns a new fingerprint (a
    [file_sha] that is not empty), the caller stores it as its [sha], and
    the next attempt for the file uses it: every commit request of an
    attempt made while the store holds it carries it as [expected_sha], and
    such an attempt does send a commit request once scan and validation
    pass. *)
Theorem accepted_commit_stores_fingerprint (server : Backend) (props : Props)
    (w : World) (commitResult : CommitResponse) (f : string) :
  scan_passed server props (ui w) = true ->
  syntax_passed server props (ui w) = true ->
  on_commitFile server (commit_request props (ui w)) = HttpSuccess commitResult ->
  success commitResult = true ->
  file_sha commitResult = Some f ->
  Js.truthy f = true ->
  sha (ui (safe_push server props w)) = f
  /\ forall (server' : Backend) (w' : World),
       sha (ui w') = sha (ui (safe_push server props w)) ->
       (forall d : CommitRequest,
          CommitFile d ∈ issued w' (safe_push server' props w') ->
          expected_sha d = Some f)
       /\ (scan_passed server' props (ui w') = true ->
           syntax_passed server' props (ui w') = true ->
           exists d : CommitRequest,
             CommitFile d ∈ issued w' (safe_push server' props w')
             /\ expected_sha d = Some f).
Proof.
  intros Hscan Hsyntax Hcommit Hok Hf Hne.
  pose proof (accepted_commit_sha _ _ _ _ Hscan Hsyntax Hcommit Hok) as Hsha.
  assert (sha (ui (safe_push server props w)) = f) as Hstored.
  { rewrite Hsha, Hf. simpl. unfold Js.or_else. by rewrite Hne. }
  split; [done|].
  intros server' w' Hsame. rewrite safe_push_calls. split.
  - intros d Hin.
    destruct (scan_passed server' props (ui w')),
             (syntax_passed server' props (ui w'));
      repeat (apply elem_of_cons in Hin as [Hin|Hin]; [try discriminate|]);
      try (by apply elem_of_nil in Hin).
    injection Hin as ->. simpl. congruence.
  - intros -> ->. exists (commit_request props (ui w')). split.
    + apply list_elem_of_further, list_elem_of_further, list_elem_of_here.
    + simpl. congruence.
Qed.

(** The [file_sha] of the answer is optional. When an accepted commit
    carries none, or an empty one, the stored [sha] stays what it was. *)
Lemma accepted_commit_without_fingerprint (server : Backend) (props : Props)
    (w : World) (commitResult : CommitResponse) :
  scan_passed server props (ui w) = true ->
  syntax_passed server props (ui w) = true ->
  on_commitFile server (commit_request props (ui w)) = HttpSuccess commitResult ->
  success commitResult = true ->
  file_sha commitResult = None \/ file_sha commitResult = Some "" ->
  sha (ui (safe_push server props w)) = sha (ui w).
Proof.
  intros Hscan Hsyntax Hcommit Hok Hnone.
  rewrite (accepted_commit_sha _ _ _ _ Hscan Hsyntax Hcommit Hok).
  by destruct Hnone as [-> | ->].
Qed.

(** C7. An attempt that ends in a rejection (secret found, syntax invalid,
    fingerprint mismatch) leaves the stored fingerprint, the last-loaded
    original content, the unsaved-changes flag and the browser's local
    storage, hence the local backup, as they were; the editor content and
    the backup flag too. *)
Theorem rejection_keeps_store (server : Backend) (props : Props) (w : World)
    (reason : RejectReason) :
  attempt_outcome server props (ui w) = Rejected reason ->
  sha (ui (safe_push server props w)) = sha (ui w)
  /\ originalContent (ui (safe_push server props w)) = originalContent (ui w)
  /\ hasUnsavedChanges (ui (safe_push server props w)) = hasUnsavedChanges (ui w)
  /\ localStorage (safe_push server props w) = localStorage w
  /\ content (ui (safe_push server props w)) = content (ui w)
  /\ hasLocalBackup (ui (safe_push server props w)) = hasLocalBackup (ui w).
Proof.
  unfold attempt_outcome, commit_outcome, request.
  gate_cases.
  all: intros; simplify_eq/=; done.
Qed.

(** C8, as stated, fails: a 409 answer to the commit request does not come
    back as a value; [request] throws it as an [ApiError]. *)
Lemma conflict_is_thrown :
  ~ returns_value Examples.conflict
  /\ request Examples.conflict = Threw (ApiError 409 "Conflict: file was modified").
Proof.
  split; [|reflexivity].
  intros [v Hv]. discriminate Hv.
Qed.

(** What a failed response is thrown as. *)
Lemma failure_cases (status : Z) (b : Json) :
  (exists m, failure status b = ApiError status m
             /\ b <> JNull /\ to_string (thrown_message b) = Some m)
  \/ (exists m, failure status b = JsError "TypeError" m
                /\ (b = JNull \/ to_string (thrown_message b) = None)).
Proof.
  destruct b as [|x|n|s|items|members]; simpl;
    try (left; eexists; by repeat split).
  - right. eexists. split; [done|by left].
  - unfold failure.
    destruct (to_string (thrown_message (JObject members))) as [m|] eqn:Hm.
    + left. exists m. by repeat split.
    + right. eexists. split; [done|by right].
Qed.

(** A failure inside the [try] block of [handleSafePush] ends in the toast
    of the [catch] block. *)
Lemma thrown_push_is_caught (server : Backend) (props : Props) (w : World)
    (e : Thrown) :
  push_thrown server props (ui w) = Some e ->
  final_toast w (safe_push server props w) = Some (caught_toast e).
Proof.
  unfold push_thrown, caught_toast. gate_cases.
  all: intros; simplify_eq/=.
  all: destruct (mentions_conflict _); by read_trace.
Qed.

(** C8, as the code has it. [request] hands back a typed value exactly for
    an OK response whose body parses; every other outcome is thrown. A
    response with a non-OK status is thrown as an [ApiError] that carries
    the status, or as a [TypeError] when the error body is the JSON [null]
    or its message does not convert to a string; a transport failure and an
    unreadable body are thrown as the underlying error. The handlers catch
    what is thrown: [handleSafePush] and [handleMagicPaste] always complete
    normally, and a failure inside an attempt ends in the toast of the
    [catch] block. *)
Theorem failures_are_thrown_and_caught :
  (forall (T : Type) (o : FetchOutcome T),
     returns_value o <-> exists data, o = HttpSuccess data)
  /\ (forall (T : Type) (o : FetchOutcome T),
        (forall data, o <> HttpSuccess data) -> exists e, request o = Threw e)
  /\ (forall (T : Type) (status : Z) (body : option Json),
        (exists m, request (HttpFailure (T := T) status body)
                   = Threw (ApiError status m)
                   /\ body <> Some JNull)
        \/ (exists m, request (HttpFailure (T := T) status body)
                      = Threw (JsError "TypeError" m)
                      /\ (body = Some JNull
                          \/ to_string (thrown_message (error_body body)) = None)))
  /\ (forall (T : Type) (m : string),
        request (FetchRejected (T := T) m) = Threw (JsError "TypeError" m)
        /\ request (HttpSuccessNotJson (T := T) m) = Threw (JsError "SyntaxError" m))
  /\ (forall server props r w, fst (handleSafePush server props r w) = Returned tt)
  /\ (forall server props r w, fst (handleMagicPaste server props r w) = Returned tt)
  /\ (forall server props w e,
        push_thrown server props (ui w) = Some e ->
        final_toast w (safe_push server props w) = Some (caught_toast e)).
Proof.
  split; [|split; [|split; [|split; [|split; [|split]]]]].
  - intros T o. split.
    + intros [v Hv]. destruct o; simplify_eq/=. by eexists.
    + intros [data ->]. by eexists.
  - intros T o Hnot. destruct o as [m|status body|data|m]; simpl;
      try by eexists.
    by destruct (Hnot data).
  - intros T status body. simpl.
    destruct (failure_cases status (error_body body))
      as [(m & -> & Hnull & _)|(m & -> & Hwhy)].
    + left. exists m. split; [done|]. by intros ->.
    + right. exists m. split; [done|].
      destruct Hwhy as [Hnull|Hnone]; [left|by right].
      destruct body as [v|]; [by simpl in Hnull; subst|done].
  - done.
  - intros server props r w. gate_cases; reflexivity.
  - intros server props r w. run_handler.
    destruct (negb _); simpl; [done|].
    destruct (on_smartReplace server _); reflexivity.
  - intros server props w e. apply thrown_push_is_caught.
Qed.

End SafePushClaims.

(* ===================================================================== *)
(** ** Facts about Magic Paste *)
(* ===================================================================== *)

Section MagicPasteClaims.
Import Api Editor.

(** Reading a string as pieces loses nothing. *)
Lemma join_pieces_upto (n : nat) :
  forall s : string, (String.length s <= n)%nat -> Js.join (Js.pieces s) = s.
Proof.
  induction n as [|n IH]; intros s Hlen.
  { destruct s; simpl in Hlen; [done|lia]. }
  destruct s as [|c1 r1]; [done|]. simpl in Hlen.
  assert (Js.join (Js.Byte c1 :: Js.pieces r1) = String c1 r1) as Hbyte.
  { simpl. rewrite IH by lia. done. }
  cbn [Js.pieces].
  destruct (Js.is_white_space c1).
  { simpl. rewrite IH by lia. done. }
  destruct r1 as [|c2 r2]; [exact Hbyte|]. simpl in Hlen.
  destruct (Js.white_space2 c1 c2).
  { simpl. rewrite IH by lia. done. }
  destruct r2 as [|c3 r3]; [exact Hbyte|]. simpl in Hlen.
  destruct (Js.white_space3 c1 c2 c3); [|exact Hbyte].
  simpl. rewrite IH by lia. done.
Qed.

Lemma join_pieces (s : string) : Js.join (Js.pieces s) = s.
Proof. by apply (join_pieces_upto (String.length s)). Qed.

Lemma drop_spaces_all (ps : list Js.Piece) :
  forallb Js.is_space ps = true -> Js.drop_spaces ps = [].
Proof.
  induction ps as [|p ps IH]; simpl; [done|].
  destruct (Js.is_space p); simpl; [exact IH|done].
Qed.

Lemma trim_blank (s : string) : Js.blank s = true -> Js.trim s = "".
Proof.
  intros H. unfold Js.trim. by rewrite (drop_spaces_all _ H).
Qed.

(** C9. When the pasted text is empty or all white space, the Magic Paste
    handler shows the paste-first error and stops: it issues no request (so
    no smartReplace), and no state cell changes, the editor content
    included. The Apply button is disabled for the same texts. *)
Theorem blank_paste_is_refused (server : Backend) (props : Props) (w : World) :
  Js.blank (magicPasteCode (ui w)) = true ->
  issued w (click (handleMagicPaste server props) w) = []
  /\ shown w (click (handleMagicPaste server props) w) = [paste_first_toast]
  /\ ui (click (handleMagicPaste server props) w) = ui w
  /\ content (ui (click (handleMagicPaste server props) w)) = content (ui w)
  /\ applyMagic_disabled (ui w) = true.
Proof.
  intros Hblank. unfold applyMagic_disabled, click, handleMagicPaste.
  rewrite (trim_blank _ Hblank). simpl.
  repeat split.
  - unfold show, emit, with_event. by read_trace.
  - unfold show, emit, with_event. by read_trace.
Qed.

(** Put the other way round: every smartReplace request the handler issues
    carries a snippet that is not blank. *)
Lemma smartReplace_snippet_not_blank (server : Backend) (props : Props)
    (w : World) (d : SmartReplaceRequest) :
  SmartReplace d ∈ issued w (click (handleMagicPaste server props) w) ->
  Js.blank (new_snippet d) = false.
Proof.
  unfold click, handleMagicPaste.
  destruct (Js.truthy (Js.trim (magicPasteCode (ui w)))) eqn:Htrim; simpl.
  - run_handler. destruct (on_smartReplace server _); simpl; read_trace.
    all: intros Hin; apply elem_of_cons in Hin as [Hin|Hin];
      [|by apply elem_of_nil in Hin].
    all: injection Hin as ->; simpl.
    all: destruct (Js.blank (magicPasteCode (ui w))) eqn:Hblank; [|done].
    all: by rewrite (trim_blank _ Hblank) in Htrim.
  - unfold show, emit, with_event. read_trace.
    intros Hin. by apply elem_of_nil in Hin.
Qed.

(** C10. With a smartReplace result on display, Reject leaves the editor
    content as it is, and Accept sets it to the result's [updated_content]
    and raises the unsaved-changes flag. Neither issues a request, and
    neither touches the stored fingerprint, the last-loaded original
    content or the local storage. *)
Theorem magic_paste_needs_acceptance (w : World) (result : SmartReplaceResponse) :
  magicPasteResult (ui w) = Some result ->
  (content (ui (click rejectMagicPaste w)) = content (ui w)
   /\ hasUnsavedChanges (ui (click rejectMagicPaste w)) = hasUnsavedChanges (ui w)
   /\ issued w (click rejectMagicPaste w) = []
   /\ sha (ui (click rejectMagicPaste w)) = sha (ui w)
   /\ originalContent (ui (click rejectMagicPaste w)) = originalContent (ui w)
   /\ localStorage (click rejectMagicPaste w) = localStorage w)
  /\ (content (ui (click acceptMagicPaste w)) = updated_content result
      /\ hasUnsavedChanges (ui (click acceptMagicPaste w)) = true
      /\ issued w (click acceptMagicPaste w) = []
      /\ sha (ui (click acceptMagicPaste w)) = sha (ui w)
      /\ originalContent (ui (click acceptMagicPaste w)) = originalContent (ui w)
      /\ localStorage (click acceptMagicPaste w) = localStorage w).
Proof.
  intros Hresult. unfold click, acceptMagicPaste, rejectMagicPaste.
  rewrite Hresult. run_handler.
  repeat split.
  - unfold issued. simpl. by rewrite drop_all.
  - by read_trace.
Qed.

End MagicPasteClaims.

(* ===================================================================== *)
(** ** Facts about the smart-replace core *)
(* ===================================================================== *)

Section SmartLogicClaims.
Import SmartLogic.
Local Open Scope nat_scope.

Implicit Types (original_text fragment_text : list ascii).
Implicit Types (sp : SourceSpan) (cs : list Construct).

(** The slice a span covers, cut from the front of the text. *)
Lemma covered_take sp original_text :
  covered sp original_text
  = drop (start_offset sp) (take (end_offset sp) original_text).
Proof.
  unfold covered, slice. rewrite take_drop_commute.
  destruct (decide (start_offset sp <= end_offset sp)) as [Hle|Hgt].
  - by replace (start_offset sp + (end_offset sp - start_offset sp))
      with (end_offset sp) by lia.
  - replace (end_offset sp - start_offset sp) with 0 by lia.
    rewrite Nat.add_0_r.
    rewrite !drop_ge; [done| |]; rewrite length_take; lia.
Qed.

(** A span that ends before offset [n] is covered by the first [n]
    characters alone. *)
Lemma covered_prefix sp original_text (n : nat) (rest : list ascii) :
  end_offset sp <= n -> n <= length original_text ->
  covered sp (take n original_text ++ rest) = covered sp original_text.
Proof.
  intros Hend Hlen.
  rewrite !covered_take.
  rewrite take_app_le by (rewrite length_take; lia).
  rewrite take_take. by replace (end_offset sp `min` n) with (end_offset sp) by lia.
Qed.

(** C3. For every Replace plan, the updated content is the original's
    prefix before the span's start, then the trimmed and re-indented
    fragment, then the original's suffix from the span's end. So every
    character of the original before the span keeps its offset, and every
    character from the span's end on is found again behind the inserted
    text. *)
Theorem replace_keeps_outside original_text fragment_text
    (p : ReplacementPlan) sp :
  operation p = Replace ->
  target_span p = Some sp ->
  let updated := updated_content (apply original_text p fragment_text) in
  let inserted := replacement_text original_text sp fragment_text in
  let prefix := take (start_offset sp) original_text in
  let suffix := drop (end_offset sp) original_text in
  updated = prefix ++ inserted ++ suffix
  /\ (forall i c, i < start_offset sp -> original_text !! i = Some c ->
        updated !! i = Some c)
  /\ (forall j c, end_offset sp <= j -> original_text !! j = Some c ->
        updated !! (length prefix + length inserted + (j - end_offset sp))
        = Some c)
  /\ (start_offset sp <= length original_text ->
      length prefix = start_offset sp).
Proof.
  intros Hop Hspan updated inserted prefix suffix.
  assert (updated = prefix ++ inserted ++ suffix) as ->.
  { unfold updated, apply. by rewrite Hop, Hspan. }
  split; [done|]. split; [|split].
  - intros i c Hi Hc.
    assert (i < length prefix).
    { unfold prefix. rewrite length_take. apply lookup_lt_Some in Hc. lia. }
    rewrite lookup_app_l by done. unfold prefix. by rewrite lookup_take_lt.
  - intros j c Hj Hc.
    rewrite lookup_app_r by lia.
    rewrite lookup_app_r by lia.
    unfold suffix. rewrite lookup_drop. rewrite <- Hc. f_equal. lia.
  - intros Hle. unfold prefix. rewrite length_take. lia.
Qed.

(** Raising the floor of an ascending run of spans is sound downwards. *)
Lemma spans_ascending_from cs (from from' : nat) :
  from' <= from -> spans_ascending from cs = true ->
  spans_ascending from' cs = true.
Proof.
  destruct cs as [|c cs]; simpl; [done|].
  intros Hle H. apply andb_prop in H as [H Hrest]. apply andb_prop in H as [H1 H2].
  apply Nat.leb_le in H1. rewrite H2, Hrest, !andb_true_r.
  apply Nat.leb_le. lia.
Qed.

Lemma spans_ascending_bounds cs (from : nat) (c : Construct) :
  spans_ascending from cs = true -> c ∈ cs ->
  from <= start_offset (span c) <= end_offset (span c).
Proof.
  revert from. induction cs as [|x cs IH]; intros from H Hin.
  - by apply elem_of_nil in Hin.
  - simpl in H. apply andb_prop in H as [H Hrest]. apply andb_prop in H as [H1 H2].
    apply Nat.leb_le in H1, H2.
    apply elem_of_cons in Hin as [->|Hin]; [lia|].
    specialize (IH _ Hrest Hin). lia.
Qed.

(** Keeping some constructs of an ascending run keeps it ascending. *)
Lemma spans_ascending_filter (P : Construct -> Prop) `{!forall c, Decision (P c)}
    cs (from : nat) :
  spans_ascending from cs = true -> spans_ascending from (filter P cs) = true.
Proof.
  revert from. induction cs as [|x cs IH]; intros from Hasc; [done|].
  simpl in Hasc. apply andb_prop in Hasc as [Hasc Hrest].
  apply andb_prop in Hasc as [H1 H2].
  rewrite filter_cons. destruct (decide (P x)).
  - simpl. rewrite H1, H2. simpl. by apply IH.
  - apply IH. apply spans_ascending_from with (from := end_offset (span x)); [|done].
    apply Nat.leb_le in H1, H2. lia.
Qed.

(** In an ascending run every construct ends before a later one starts. *)
Lemma spans_ascending_before cs (c target : Construct) (from : nat)
    (earlier later : list Construct) :
  spans_ascending from (earlier ++ target :: later) = true -> c ∈ earlier ->
  start_offset (span c) <= end_offset (span c)
  /\ end_offset (span c) <= start_offset (span target).
Proof.
  revert from. induction earlier as [|x earlier IH]; intros from H Hin.
  - by apply elem_of_nil in Hin.
  - simpl in H. apply andb_prop in H as [H Hrest]. apply andb_prop in H as [H1 H2].
    apply Nat.leb_le in H1, H2.
    apply elem_of_cons in Hin as [Heq|Hin]; [|by eapply IH].
    rewrite Heq. split; [done|].
    assert (target ∈ earlier ++ target :: later) as Ht
      by (apply elem_of_app; right; apply elem_of_cons; by left).
    pose proof (spans_ascending_bounds _ _ _ Hrest Ht). lia.
Qed.

(** A list that is not empty has a last element. *)
Lemma snoc_view (ms : list Construct) :
  1 <= length ms -> exists earlier target, ms = earlier ++ [target].
Proof.
  induction ms as [|target earlier _] using rev_ind; simpl; [lia|].
  intros _. by exists earlier, target.
Qed.

(** C4. Let the located constructs of a file hold two or more that match the
    fragment's name and kind. Then the plan is a Replace of the last match,
    whose start offset no other match exceeds, and in the updated content
    every earlier match still covers, at its own offsets, the text it
    covered in the original. *)
Theorem duplicate_names_replace_last original_text fragment_text cs
    (fragment : Fragment) (n : string) (k : ConstructKind) :
  located_in original_text cs = true ->
  declared_name fragment = Some n ->
  fragment_kind fragment = Some k ->
  2 <= length (filter (fun c => same_construct n (Some k) c = true) cs) ->
  exists (earlier : list Construct) (target : Construct),
    filter (fun c => same_construct n (Some k) c = true) cs = earlier ++ [target]
    /\ plan cs fragment
       = {| operation := Replace; target_span := Some (span target);
            target_name := Some n |}
    /\ (forall c, c ∈ earlier ->
          start_offset (span c) <= start_offset (span target))
    /\ (forall c, c ∈ earlier ->
          covered (span c)
            (updated_content (apply original_text (plan cs fragment) fragment_text))
          = covered (span c) original_text).
Proof.
  intros Hlocated Hname Hkind Hmany.
  apply andb_prop in Hlocated as [Hasc Hwithin].
  pose proof (spans_ascending_filter
                (fun c => same_construct n (Some k) c = true) cs 0 Hasc) as Hsub.
  assert (forall c, c ∈ filter (fun c => same_construct n (Some k) c = true) cs ->
            name c = n /\ end_offset (span c) <= length original_text) as Hmatch.
  { intros c Hc. apply list_elem_of_filter in Hc as [Hsame Hc]. split.
    - unfold same_construct in Hsame. apply andb_prop in Hsame as [Hn _].
      by apply bool_decide_eq_true in Hn.
    - apply list_elem_of_In in Hc.
      rewrite forallb_forall in Hwithin. by apply Nat.leb_le, Hwithin. }
  unfold plan. rewrite Hname, Hkind.
  destruct (snoc_view (filter (fun c => same_construct n (Some k) c = true) cs))
    as (earlier & target & Hms); [lia|].
  rewrite Hms in *.
  exists earlier, target.
  assert (name target = n /\ end_offset (span target) <= length original_text)
    as [Htarget Hend]
    by (apply Hmatch, elem_of_app; right; apply elem_of_cons; by left).
  assert (match earlier ++ [target] with
          | [] => append_plan
          | [c] => replace_plan c
          | c :: more => replace_plan (List.last more c)
          end = {| operation := Replace; target_span := Some (span target);
                   target_name := Some n |}) as ->.
  { rewrite <- Htarget. fold (replace_plan target).
    destruct earlier as [|c0 [|c1 more]].
    - rewrite length_app in Hmany. simpl in Hmany. lia.
    - reflexivity.
    - change (replace_plan (List.last ((c1 :: more) ++ [target]) c0)
              = replace_plan target).
      by rewrite List.last_last. }
  split; [done|]. split; [done|].
  assert (forall c, c ∈ earlier ->
            start_offset (span c) <= end_offset (span c)
            /\ end_offset (span c) <= start_offset (span target)) as Hbefore.
  { intros c Hc. by eapply spans_ascending_before. }
  assert (start_offset (span target) <= end_offset (span target)) as Hspan.
  { eapply (spans_ascending_bounds _ 0 target) in Hsub; [lia|].
    apply elem_of_app; right; apply elem_of_cons; by left. }
  split.
  - intros c Hc. destruct (Hbefore c Hc). lia.
  - intros c Hc. destruct (Hbefore c Hc).
    unfold apply. simpl. apply covered_prefix; lia.
Qed.

End SmartLogicClaims.

(* ===================================================================== *)
(** ** The theorems at concrete inputs *)
(* ===================================================================== *)

Section Instances.
Import Api Editor Examples.

(** The scan finds a secret in the editor content of [world0]. *)
Lemma unsafe_scan_blocks_push_witness :
  issued world0
    (safe_push (answering unsafe valid conflict no_smart) props0 world0)
  = [ScanSecrets "print(1)" (Some "src/app.py")].
Proof.
  apply (unsafe_scan_blocks_push
           (answering unsafe valid conflict no_smart) props0 world0 0 []).
  reflexivity.
Defined.

(** The validator rejects the editor content of [world0]. *)
Lemma safe_push_order_witness :
  Forall (fun c => is_commit c = false)
    (issued world0
       (safe_push (answering safe invalid conflict no_smart) props0 world0)).
Proof.
  apply (proj2 (safe_push_order
                  (answering safe invalid conflict no_smart) props0 world0)
           invalid_result).
  - reflexivity.
  - reflexivity.
Defined.

(** A 409 on the commit of one attempt, a syntax error in another. *)
Lemma mismatch_shown_apart_from_syntax_error_witness :
  final_toast world0
    (safe_push (answering safe valid conflict no_smart) props0 world0)
  = Some conflict_toast
  /\ final_toast world0
       (safe_push (answering safe invalid conflict no_smart) props0 world0)
     = Some (syntax_toast invalid_result).
Proof.
  pose proof (mismatch_shown_apart_from_syntax_error
                (answering safe valid conflict no_smart) props0 world0
                (ApiError 409 "Conflict: file was modified")
                (answering safe invalid conflict no_smart) props0 world0
                invalid_result
                eq_refl eq_refl eq_refl eq_refl eq_refl eq_refl eq_refl)
    as (Hmismatch & Hsyntax & _).
  split; [exact Hmismatch|exact Hsyntax].
Defined.

(** The backend accepts the commit and returns the fingerprint [def456];
    the attempt that follows sends it. *)
Lemma accepted_commit_stores_fingerprint_witness :
  sha (ui (safe_push
             (answering safe valid (HttpSuccess (accepted (Some "def456")))
                no_smart)
             props0 world0))
  = "def456"
  /\ exists d : CommitRequest,
       CommitFile d
       ∈ issued
           (safe_push
              (answering safe valid (HttpSuccess (accepted (Some "def456")))
                 no_smart)
              props0 world0)
           (safe_push
              (answering safe valid conflict no_smart) props0
              (safe_push
                 (answering safe valid (HttpSuccess (accepted (Some "def456")))
                    no_smart)
                 props0 world0))
       /\ expected_sha d = Some "def456".
Proof.
  destruct (accepted_commit_stores_fingerprint
              (answering safe valid
                 (HttpSuccess (accepted (Some "def456"))) no_smart)
              props0 world0 (accepted (Some "def456")) "def456"
              eq_refl eq_refl eq_refl eq_refl eq_refl eq_refl)
    as [Hstored Hnext].
  split; [exact Hstored|].
  destruct (Hnext (answering safe valid conflict no_smart)
              (safe_push
                 (answering safe valid (HttpSuccess (accepted (Some "def456")))
                    no_smart)
                 props0 world0)
              eq_refl)
    as [_ Hsent].
  exact (Hsent eq_refl eq_refl).
Defined.

(** The commit is answered with a 409: the conflict toast is what the
    [catch] block shows. *)
Lemma failures_are_thrown_and_caught_witness :
  final_toast world0
    (safe_push (answering safe valid conflict no_smart) props0 world0)
  = Some conflict_toast.
Proof.
  destruct failures_are_thrown_and_caught
    as (_ & _ & _ & _ & _ & _ & Hcaught).
  exact (Hcaught (answering safe valid conflict no_smart) props0 world0
           (ApiError 409 "Conflict: file was modified") eq_refl).
Defined.

(** One attempt for each of the three rejections. *)
Lemma rejection_keeps_store_witness :
  sha (ui (safe_push (answering unsafe valid conflict no_smart) props0 world0))
    = "abc123"
  /\ sha (ui (safe_push (answering safe invalid conflict no_smart) props0 world0))
     = "abc123"
  /\ sha (ui (safe_push (answering safe valid conflict no_smart) props0 world0))
     = "abc123".
Proof.
  split; [|split].
  - apply (rejection_keeps_store
             (answering unsafe valid conflict no_smart) props0 world0
             SecretFound eq_refl).
  - apply (rejection_keeps_store
             (answering safe invalid conflict no_smart) props0 world0
             SyntaxInvalid eq_refl).
  - apply (rejection_keeps_store
             (answering safe valid conflict no_smart) props0 world0
             FingerprintMismatch eq_refl).
Defined.

(** The pasted text is a space, a line feed, a tab and a no-break space. *)
Lemma blank_paste_is_refused_witness :
  issued world_blank_paste
    (click (handleMagicPaste (answering safe valid conflict no_smart) props0)
       world_blank_paste)
  = [].
Proof.
  apply (blank_paste_is_refused
           (answering safe valid conflict no_smart) props0 world_blank_paste).
  reflexivity.
Defined.

(** The dialog shows [replaced]; the editor holds [print(1)]. *)
Lemma magic_paste_needs_acceptance_witness :
  content (ui (click rejectMagicPaste world_with_result)) = "print(1)"
  /\ content (ui (click acceptMagicPaste world_with_result)) = "print(2)".
Proof.
  pose proof (magic_paste_needs_acceptance world_with_result replaced eq_refl)
    as [[Hreject _] [Haccept _]].
  split; [exact Hreject|exact Haccept].
Defined.

(** The second [f] of [twice] is replaced, within the text. *)
Lemma replace_keeps_outside_witness :
  SmartLogic.updated_content
    (SmartLogic.apply twice (SmartLogic.replace_plan second_f) new_f_text)
  = take 33 twice
    ++ SmartLogic.replacement_text twice (SmartLogic.span second_f) new_f_text
    ++ drop 54 twice.
Proof.
  apply (replace_keeps_outside twice new_f_text
           (SmartLogic.replace_plan second_f) (SmartLogic.span second_f)
           eq_refl eq_refl).
Defined.

(** [twice] defines [f] twice; the fragment redefines [f]. *)
Lemma duplicate_names_replace_last_witness :
  exists earlier target,
    filter (fun c => SmartLogic.same_construct "f" (Some SmartLogic.Function) c = true)
      [first_f; second_f] = earlier ++ [target]
    /\ SmartLogic.plan [first_f; second_f] new_f
       = {| SmartLogic.operation := SmartLogic.Replace;
            SmartLogic.target_span := Some (SmartLogic.span target);
            SmartLogic.target_name := Some "f" |}.
Proof.
  destruct (duplicate_names_replace_last twice new_f_text [first_f; second_f]
              new_f "f" SmartLogic.Function eq_refl eq_refl eq_refl)
    as (earlier & target & Hmatches & Hplan & _).
  - vm_compute. lia.
  - exists earlier, target. split; [exact Hmatches|exact Hplan].
Defined.

End Instances.
(* ===================================================================== *)
(** ** More facts about the commit gate and Magic Paste *)
(* ===================================================================== *)

Section MoreEditorFacts.
Import Api Editor Session.

Ltac read_appended :=
  unfold appended; simpl; rewrite <- ?app_assoc; rewrite ?drop_app_length; simpl.

(** What [request] throws for a failed response. A body that is not JSON
    gives an [ApiError] with the message ["Unknown error"]; the JSON [null]
    gives a [TypeError], not an [ApiError]. For every other body the
    message is the first of [detail] and [error] that is there and truthy,
    else ["Request failed"]: a [detail] that is a non-empty string is the
    message, and so is such an [error] when [detail] is missing or falsy.
    The message is what [String(...)] makes of the value chosen, so a
    [detail] that is the empty array, which is truthy, gives an [ApiError]
    whose message is empty. *)
Theorem api_error_message_choice (T : Type) (status : Z) :
  request (HttpFailure (T := T) status None)
  = Threw (ApiError status "Unknown error")
  /\ (exists m, request (HttpFailure (T := T) status (Some JNull))
                = Threw (JsError "TypeError" m))
  /\ (forall v d,
        property "detail" v = Some (JString d) -> Js.truthy d = true ->
        request (HttpFailure (T := T) status (Some v)) = Threw (ApiError status d))
  /\ (forall v e,
        json_falsy (property "detail" v) = true ->
        property "error" v = Some (JString e) -> Js.truthy e = true ->
        request (HttpFailure (T := T) status (Some v)) = Threw (ApiError status e))
  /\ (forall v,
        v <> JNull ->
        json_falsy (property "detail" v) = true ->
        json_falsy (property "error" v) = true ->
        request (HttpFailure (T := T) status (Some v))
        = Threw (ApiError status "Request failed"))
  /\ (forall v,
        property "detail" v = Some (JArray []) ->
        request (HttpFailure (T := T) status (Some v)) = Threw (ApiError status "")).
Proof.
  assert (forall v chosen,
            v <> JNull -> thrown_message v = chosen ->
            forall m, to_string chosen = Some m ->
            request (HttpFailure (T := T) status (Some v))
            = Threw (ApiError status m)) as Hchoice.
  { intros v chosen Hv <- m Hm. simpl. unfold failure.
    destruct v; try done; by rewrite Hm. }
  assert (forall key v x, property key v = Some x -> v <> JNull) as Hobject.
  { intros key v x Hx ->. discriminate Hx. }
  split; [done|]. split; [by eexists|].
  split; [|split; [|split]].
  - intros v d Hd Ht.
    apply (Hchoice v (JString d)); [by eapply Hobject| |done].
    unfold thrown_message. rewrite Hd. simpl. by rewrite Ht.
  - intros v e Hd He Ht.
    apply (Hchoice v (JString e)); [by eapply Hobject| |done].
    unfold thrown_message. rewrite He. simpl. rewrite Ht.
    destruct (property "detail" v) as [x|]; simpl in *; [|done].
    by destruct (json_truthy x).
  - intros v Hv Hd He.
    apply (Hchoice v (JString "Request failed")); [done| |done].
    unfold thrown_message.
    destruct (property "detail" v) as [x|], (property "error" v) as [y|];
      simpl in *; try done.
    all: try destruct (json_truthy x); try destruct (json_truthy y); done.
  - intros v Hd.
    apply (Hchoice v (JArray [])); [by eapply Hobject| |done].
    unfold thrown_message. by rewrite Hd.
Qed.

(** Every request of a Safe Push attempt carries the [Authorization] header
    made from the [accessToken] prop, whatever token the client held before
    the attempt. *)
Theorem push_requests_carry_token (server : Backend) (props : Props)
    (w : World) :
  Forall (fun e => forall a c, e = Fetched a c ->
                   a = authorization_header (Some (accessToken props)))
    (appended w (safe_push server props w)).
Proof.
  gate_cases; read_appended.
  all: repeat constructor.
  all: by intros a c [= <- _].
Qed.

(** What the backend answered when an attempt ends committed. *)
Lemma committed_answers (server : Backend) (props : Props) (r : EditorState) :
  attempt_outcome server props r = Committed ->
  exists scanResult syntaxResult commitResult,
    on_scanSecrets server (content r) (Some (filePath props))
      = HttpSuccess scanResult
    /\ is_safe scanResult = true
    /\ on_validateSyntax server (content r) (language props)
         (Some (filePath props)) = HttpSuccess syntaxResult
    /\ is_valid syntaxResult = true
    /\ on_commitFile server (commit_request props r) = HttpSuccess commitResult
    /\ success commitResult = true.
Proof.
  unfold attempt_outcome, commit_outcome, request.
  destruct (on_scanSecrets server _ _) as [?|? ?|sr|?]; try done.
  destruct (is_safe sr) eqn:?; [|done].
  destruct (on_validateSyntax server _ _ _) as [?|? ?|vr|?]; try done.
  destruct (is_valid vr) eqn:?; [|done].
  destruct (on_commitFile server _) as [?|? ?|cr|?];
    try (destruct (is_mismatch _); done).
  destruct (success cr) eqn:?; [|done].
  intros _. by exists sr, vr, cr.
Qed.

(** A committed attempt deletes the backup item and nothing else. *)
Lemma committed_store (server : Backend) (props : Props) (w : World) :
  attempt_outcome server props (ui w) = Committed ->
  localStorage (safe_push server props w)
  = delete (backupKey props) (localStorage w).
Proof.
  intros Hout.
  destruct (committed_answers _ _ _ Hout)
    as (sr & vr & cr & Hscan & Hsafe & Hsyntax & Hvalid & Hcommit & Hok).
  run_handler. rewrite Hscan. simpl. rewrite Hsafe. simpl.
  rewrite Hsyntax. simpl. rewrite Hvalid. simpl.
  rewrite Hcommit. simpl. rewrite Hok. simpl.
  by destruct (onSaveSuccess props).
Qed.

(** A committed attempt leaves a clean editor: the pushed content is the new
    original, the unsaved-changes flag is down, the backup of this file is
    gone from local storage and no other item is touched, the success toast
    is on screen, and [onSaveSuccess] ran exactly if it was passed. *)
Theorem committed_attempt_cleans_editor (server : Backend) (props : Props)
    (w : World) :
  attempt_outcome server props (ui w) = Committed ->
  let after := safe_push server props w in
  originalContent (ui after) = content (ui w)
  /\ content (ui after) = content (ui w)
  /\ hasUnsavedChanges (ui after) = false
  /\ localStorage after = delete (backupKey props) (localStorage w)
  /\ (exists commitResult,
        on_commitFile server (commit_request props (ui w)) = HttpSuccess commitResult
        /\ final_toast w after = Some (success_toast commitResult))
  /\ (SaveSuccessCalled ∈ appended w after <-> onSaveSuccess props = true).
Proof.
  intros Hout.
  destruct (committed_answers _ _ _ Hout)
    as (sr & vr & cr & Hscan & Hsafe & Hsyntax & Hvalid & Hcommit & Hok).
  run_handler. rewrite Hscan. simpl. rewrite Hsafe. simpl.
  rewrite Hsyntax. simpl. rewrite Hvalid. simpl.
  rewrite Hcommit. simpl. rewrite Hok. simpl.
  destruct (onSaveSuccess props); simpl.
  all: repeat split; try done.
  all: try (exists cr; split; [done|by read_trace]).
  all: read_appended.
  - intros _.
    repeat first [apply list_elem_of_here | apply list_elem_of_further].
  - intros Hin.
    repeat (apply elem_of_cons in Hin as [Hin|Hin]; [discriminate|]).
    by apply elem_of_nil in Hin.
Qed.

(** What a Safe Push attempt never does, whatever the backend answers: it
    does not change the editor content, the Magic Paste dialog, the backup
    flag or the loading and binary flags, and it touches no item of local
    storage other than this file's backup. When it is over the saving flag
    is down and the client holds the [accessToken] prop. *)
Theorem safe_push_frame (server : Backend) (props : Props) (w : World) :
  content (ui (safe_push server props w)) = content (ui w)
  /\ isSaving (ui (safe_push server props w)) = false
  /\ hasLocalBackup (ui (safe_push server props w)) = hasLocalBackup (ui w)
  /\ showMagicPaste (ui (safe_push server props w)) = showMagicPaste (ui w)
  /\ magicPasteCode (ui (safe_push server props w)) = magicPasteCode (ui w)
  /\ magicPasteResult (ui (safe_push server props w)) = magicPasteResult (ui w)
  /\ isLoading (ui (safe_push server props w)) = isLoading (ui w)
  /\ isBinary (ui (safe_push server props w)) = isBinary (ui w)
  /\ api_token (safe_push server props w) = Some (accessToken props)
  /\ (forall key, key <> backupKey props ->
        localStorage (safe_push server props w) !! key = localStorage w !! key).
Proof.
  gate_cases.
  all: repeat split; try done.
  all: intros key Hkey; by rewrite lookup_delete_ne.
Qed.

Lemma scan_passed_answer (server : Backend) (props : Props) (r : EditorState) :
  scan_passed server props r = true ->
  exists scanResult,
    on_scanSecrets server (content r) (Some (filePath props))
      = HttpSuccess scanResult
    /\ is_safe scanResult = true.
Proof.
  unfold scan_passed.
  destruct (on_scanSecrets server _ _) as [?|? ?|sr|?]; try done.
  intros Hsafe. by exists sr.
Qed.

Lemma syntax_passed_answer (server : Backend) (props : Props) (r : EditorState) :
  syntax_passed server props r = true ->
  exists syntaxResult,
    on_validateSyntax server (content r) (language props)
      (Some (filePath props)) = HttpSuccess syntaxResult
    /\ is_valid syntaxResult = true.
Proof.
  unfold syntax_passed.
  destruct (on_validateSyntax server _ _ _) as [?|? ?|vr|?]; try done.
  intros Hvalid. by exists vr.
Qed.

(** When the backend answers the commit request with an OK response that
    says [success = false], the attempt reports nothing: the stored
    fingerprint, the original content, the unsaved-changes flag and local
    storage stay as they were, and the toast left on screen is still the
    loading toast of step 3. *)
Theorem unaccepted_commit_is_silent (server : Backend) (props : Props)
    (w : World) (commitResult : CommitResponse) :
  scan_passed server props (ui w) = true ->
  syntax_passed server props (ui w) = true ->
  on_commitFile server (commit_request props (ui w)) = HttpSuccess commitResult ->
  success commitResult = false ->
  let after := safe_push server props w in
  final_toast w after = Some (loading "Pushing to GitHub...")
  /\ Forall (fun t => level t = Loading) (shown w after)
  /\ sha (ui after) = sha (ui w)
  /\ originalContent (ui after) = originalContent (ui w)
  /\ hasUnsavedChanges (ui after) = hasUnsavedChanges (ui w)
  /\ localStorage after = localStorage w.
Proof.
  intros Hscan Hsyntax Hcommit Hno.
  destruct (scan_passed_answer _ _ _ Hscan) as (sr & Hsr & Hsafe).
  destruct (syntax_passed_answer _ _ _ Hsyntax) as (vr & Hvr & Hvalid).
  run_handler. rewrite Hsr. simpl. rewrite Hsafe. simpl.
  rewrite Hvr. simpl. rewrite Hvalid. simpl.
  rewrite Hcommit. simpl. rewrite Hno. simpl.
  split; [by read_trace|]. split; [|done].
  read_trace. by repeat constructor.
Qed.

Lemma drop_spaces_some (ps : list Js.Piece) :
  forallb Js.is_space ps = false ->
  exists c rest, Js.drop_spaces ps = Js.Byte c :: rest.
Proof.
  induction ps as [|p ps IH]; simpl; [done|].
  destruct p as [c more|c]; simpl; [exact IH|]. intros _. by eexists _, _.
Qed.

Lemma drop_spaces_keeps_last (ps : list Js.Piece) (c : ascii) :
  Js.drop_spaces (ps ++ [Js.Byte c]) <> [].
Proof.
  induction ps as [|p ps IH]; simpl; [done|].
  by destruct (Js.is_space p).
Qed.

Lemma join_truthy (ps : list Js.Piece) : ps <> [] -> Js.truthy (Js.join ps) = true.
Proof. destruct ps as [|[c more|c] ps]; done. Qed.

(** [trim] leaves something exactly when the text is not blank. *)
Lemma trim_not_blank (s : string) :
  Js.blank s = false -> Js.truthy (Js.trim s) = true.
Proof.
  unfold Js.blank, Js.trim. intros Hs.
  destruct (drop_spaces_some _ Hs) as (c & rest & ->).
  apply join_truthy. rewrite reverse_cons.
  intros Hnil%(f_equal reverse). rewrite reverse_involutive in Hnil.
  by apply (drop_spaces_keeps_last (reverse rest) c).
Qed.

(** Magic Paste only prepares a preview. Whatever is pasted and whatever
    the backend answers, [handleMagicPaste] leaves the editor content, the
    stored fingerprint, the original content, the unsaved-changes flag and
    local storage alone. For a text that is not blank it sends one
    smartReplace request, with the editor content and the text as pasted
    (not trimmed), keeps the answer as the pending result, or shows the
    failure and keeps the old result, and ends with the processing flag
    down. *)
Theorem magic_paste_is_preview_only (server : Backend) (props : Props)
    (w : World) :
  let after := click (handleMagicPaste server props) w in
  let sent :=
    {| sr_file_path := filePath props;
       full_file_content := content (ui w);
       new_snippet := magicPasteCode (ui w);
       sr_language := Some (language props) |} in
  (content (ui after) = content (ui w)
   /\ sha (ui after) = sha (ui w)
   /\ originalContent (ui after) = originalContent (ui w)
   /\ hasUnsavedChanges (ui after) = hasUnsavedChanges (ui w)
   /\ localStorage after = localStorage w)
  /\ (Js.blank (magicPasteCode (ui w)) = false ->
      issued w after = [SmartReplace sent]
      /\ isProcessingMagic (ui after) = false
      /\ match request (on_smartReplace server sent) with
         | Returned result =>
             magicPasteResult (ui after) = Some result /\ shown w after = []
         | Threw err =>
             magicPasteResult (ui after) = magicPasteResult (ui w)
             /\ shown w after = [magic_failed_toast (message_of err)]
         end).
Proof.
  intros after sent. subst after sent. split.
  - unfold click, handleMagicPaste.
    destruct (negb _); simpl; [done|].
    run_handler. by destruct (on_smartReplace server _).
  - intros Hblank. unfold click, handleMagicPaste.
    rewrite (trim_not_blank _ Hblank). simpl.
    run_handler. destruct (on_smartReplace server _); simpl.
    all: split; [by read_trace|]. all: split; [done|].
    all: split; [done|by read_trace].
Qed.

End MoreEditorFacts.

(* ===================================================================== *)
(** ** Facts about lib/utils.ts *)
(* ===================================================================== *)

Section UtilsFacts.
Import Utils.
Local Open Scope nat_scope.

Lemma split_nonempty (sep : ascii) (s : string) :
  exists seg segs, split sep s = seg :: segs.
Proof.
  induction s as [|c s (seg & segs & IH)]; simpl; [by eexists _, _|].
  destruct (Ascii.eqb c sep); [by eexists _, _|].
  rewrite IH. by eexists _, _.
Qed.

(** Splitting behind a separator splits both sides. *)
Lemma split_app (sep : ascii) (a b : string) :
  split sep (a +:+ String sep b) = split sep a ++ split sep b.
Proof.
  induction a as [|c a IH]; simpl.
  - by rewrite Ascii.eqb_refl.
  - change (String c a +:+ String sep b) with (String c (a +:+ String sep b)).
    simpl. destruct (Ascii.eqb c sep); rewrite IH; [done|].
    by destruct (split_nonempty sep a) as (seg & segs & ->).
Qed.

Lemma split_without (sep : ascii) (s : string) :
  occurs sep s = false -> split sep s = [s].
Proof.
  induction s as [|c s IH]; simpl; [done|].
  intros [Hc Hs]%orb_false_elim. rewrite Hc, (IH Hs). done.
Qed.

Lemma occurs_lower_dot (s : string) :
  occurs "." (toLowerCase s) = occurs "." s.
Proof.
  induction s as [|c s IH]; simpl; [done|]. rewrite IH. f_equal.
  unfold lower.
  destruct (Ascii.eqb c ".") eqn:Hc.
  - apply Ascii.eqb_eq in Hc as ->. reflexivity.
  - destruct ((65 <=? Ascii.nat_of_ascii c) && (Ascii.nat_of_ascii c <=? 90)) eqn:Hup;
      [|done].
    apply Ascii.eqb_neq. intros Heq.
    apply andb_prop in Hup as [H1 H2].
    apply Nat.leb_le in H1, H2.
    apply (f_equal Ascii.nat_of_ascii) in Heq.
    rewrite Ascii.nat_ascii_embedding in Heq by lia.
    change (Ascii.nat_of_ascii ".") with 46 in Heq. lia.
Qed.

Lemma last_split_without (s : string) :
  forall seg, last (split "." s) = Some seg -> occurs "." seg = false.
Proof.
  induction s as [|c s IH]; simpl; intros seg.
  - by intros [= <-].
  - destruct (Ascii.eqb c ".") eqn:Hc.
    + destruct (split_nonempty "." s) as (x & xs & Hs).
      rewrite Hs. rewrite last_cons_cons. rewrite <- Hs. apply IH.
    + destruct (split_nonempty "." s) as (x & xs & Hs). rewrite Hs in *.
      destruct xs as [|y ys].
      * simpl. intros [= <-]. simpl. rewrite Hc. by apply IH.
      * rewrite last_cons_cons. apply IH.
Qed.

Lemma lower_idempotent (c : ascii) : lower (lower c) = lower c.
Proof.
  unfold lower.
  destruct ((65 <=? Ascii.nat_of_ascii c) && (Ascii.nat_of_ascii c <=? 90))
    eqn:Hup; [|by rewrite Hup].
  apply andb_prop in Hup as [H1 H2]. apply Nat.leb_le in H1, H2.
  rewrite Ascii.nat_ascii_embedding by lia.
  replace (Ascii.nat_of_ascii c + 32 <=? 90) with false; [by rewrite andb_false_r|].
  symmetry. apply Nat.leb_gt. lia.
Qed.

Lemma toLowerCase_idempotent (s : string) :
  toLowerCase (toLowerCase s) = toLowerCase s.
Proof.
  induction s as [|c s IH]; simpl; [done|]. by rewrite lower_idempotent, IH.
Qed.

Lemma or_else_empty (s : string) : Js.or_else s "" = s.
Proof. by destruct s. Qed.

Lemma getFileExtension_last (base ext : string) :
  occurs "." ext = false ->
  getFileExtension (base +:+ String "." ext) = toLowerCase ext.
Proof.
  intros Hext. unfold getFileExtension.
  rewrite split_app, (split_without _ _ Hext), last_snoc.
  apply or_else_empty.
Qed.

Lemma getFileExtension_dotless (path : string) :
  occurs "." path = false -> getFileExtension path = toLowerCase path.
Proof.
  intros Hpath. unfold getFileExtension.
  rewrite (split_without _ _ Hpath). simpl. apply or_else_empty.
Qed.

Lemma getFileExtension_no_dot (path : string) :
  occurs "." (getFileExtension path) = false.
Proof.
  unfold getFileExtension.
  destruct (last (split "." path)) as [seg|] eqn:Hlast; [|done].
  rewrite or_else_empty, occurs_lower_dot. by eapply last_split_without.
Qed.

Lemma getFileExtension_idempotent (path : string) :
  getFileExtension (getFileExtension path) = getFileExtension path.
Proof.
  rewrite (getFileExtension_dotless _ (getFileExtension_no_dot path)).
  unfold getFileExtension.
  destruct (last (split "." path)) as [seg|]; [|done].
  by rewrite or_else_empty, toLowerCase_idempotent.
Qed.

(** For names of ASCII characters: the extension of a path is the text
    behind its last dot, in lower case, whatever comes before that dot. A
    path without a dot is its own extension, so a file called [Makefile] has
    the extension [makefile]. The result holds no dot, and taking the
    extension again changes nothing. *)
Theorem file_extension_is_last_segment (base ext path : string) :
  ascii_only ext = true ->
  ascii_only path = true ->
  (occurs "." ext = false ->
   getFileExtension (base +:+ String "." ext) = toLowerCase ext)
  /\ (occurs "." path = false -> getFileExtension path = toLowerCase path)
  /\ occurs "." (getFileExtension path) = false
  /\ getFileExtension (getFileExtension path) = getFileExtension path.
Proof.
  intros _ _. split; [|split; [|split]].
  - intros Hext. by apply getFileExtension_last.
  - intros Hpath. by apply getFileExtension_dotless.
  - apply getFileExtension_no_dot.
  - apply getFileExtension_idempotent.
Qed.

Lemma binary_names_plain :
  Forall (fun e => occurs "." e = false /\ toLowerCase e = e)
    binaryExtensionNames.
Proof. repeat constructor. Qed.

(** For a path of ASCII characters, [isBinaryFile] looks at the extension
    only: directories, the base name and the case of the letters do not
    matter. A path whose last segment is one of the listed names is binary,
    also when that name is the whole path; and a binary path always has one
    of the listed names as its extension. *)
Theorem binary_file_by_extension (path base e : string) :
  ascii_only path = true ->
  isBinaryFile path = isBinaryFile (getFileExtension path)
  /\ (e ∈ binaryExtensionNames ->
      isBinaryFile (base +:+ String "." e) = true /\ isBinaryFile e = true)
  /\ (isBinaryFile path = true -> getFileExtension path ∈ binaryExtensionNames).
Proof.
  intros _. split; [|split].
  - unfold isBinaryFile. by rewrite getFileExtension_idempotent.
  - intros He.
    destruct (proj1 (Forall_forall _ _) binary_names_plain e He) as [Hdot Hlow].
    unfold isBinaryFile.
    rewrite (getFileExtension_last _ _ Hdot), (getFileExtension_dotless _ Hdot).
    rewrite Hlow. split; apply bool_decide_eq_true;
      by apply elem_of_list_to_set.
  - unfold isBinaryFile. intros Hin%bool_decide_eq_true.
    by apply elem_of_list_to_set in Hin.
Qed.

Lemma language_names_truthy :
  Forall (fun entry => Js.truthy entry.2 = true) languageEntries.
Proof. repeat constructor. Qed.

Lemma language_name_truthy (ext name : string) :
  languageMap !! ext = Some name -> Js.truthy name = true.
Proof.
  intros Hin%elem_of_list_to_map_2.
  exact (proj1 (Forall_forall _ _) language_names_truthy _ Hin).
Qed.

Lemma inherited_not_own (key : string) :
  key ∈ inherited_keys -> languageMap !! key = None.
Proof.
  intros Hin. unfold inherited_keys in Hin.
  repeat (apply elem_of_cons in Hin as [->|Hin]; [by vm_compute|]).
  by apply elem_of_nil in Hin.
Qed.

(** For a path of ASCII characters, [getMonacoLanguage] looks at the
    extension only. For every extension except [constructor] and [__proto__]
    it returns a language name that is not empty: the entry of [languageMap]
    when there is one, [plaintext] otherwise. For those two it returns what
    the lookup finds on the prototype of the map, which is not a string. *)
Theorem monaco_language_by_extension (path : string) :
  ascii_only path = true ->
  getMonacoLanguage path = getMonacoLanguage (getFileExtension path)
  /\ (getFileExtension path ∉ inherited_keys ->
      exists name,
        getMonacoLanguage path = LanguageName name
        /\ Js.truthy name = true
        /\ (languageMap !! getFileExtension path = None -> name = "plaintext")
        /\ (forall own, languageMap !! getFileExtension path = Some own ->
              name = own))
  /\ (getFileExtension path ∈ inherited_keys ->
      getMonacoLanguage path = PrototypeMember (getFileExtension path)).
Proof.
  intros _. split; [|split].
  - unfold getMonacoLanguage. by rewrite getFileExtension_idempotent.
  - intros Hnot. unfold getMonacoLanguage.
    destruct (languageMap !! getFileExtension path) as [own|] eqn:Hown.
    + pose proof (language_name_truthy _ _ Hown) as Ht.
      exists own. unfold Js.or_else. rewrite Ht.
      repeat split; [done|]. by intros ? [= ->].
    + rewrite bool_decide_eq_false_2 by done.
      exists "plaintext". repeat split; done.
  - intros Hin. unfold getMonacoLanguage.
    rewrite (inherited_not_own _ Hin). by rewrite bool_decide_eq_true_2.
Qed.

Lemma replace_slashes_app (a b : string) :
  Js.replace_slashes (a +:+ b) = Js.replace_slashes a +:+ Js.replace_slashes b.
Proof.
  induction a as [|c a IH]; [done|].
  change (String c a +:+ b) with (String c (a +:+ b)). simpl. by rewrite IH.
Qed.

(** Backup keys flatten the path. Two paths of one repository have the same
    backup key exactly when they are equal after every slash is replaced by
    an underscore; so [dir/name] and [dir_name] share one backup. *)
Theorem backup_keys_flatten_paths (repo p q : string) :
  (Editor.getBackupKey repo p = Editor.getBackupKey repo q
   <-> Js.replace_slashes p = Js.replace_slashes q)
  /\ Editor.getBackupKey repo (p +:+ String "/" q)
     = Editor.getBackupKey repo (p +:+ String "_" q).
Proof.
  unfold Editor.getBackupKey. split; [split|].
  - intros Heq. by repeat apply String.app_inj in Heq.
  - by intros ->.
  - by rewrite !replace_slashes_app.
Qed.

End UtilsFacts.

Section StorageFacts.
Import Utils.
Context `{JsonCodec}.

(** [storage] round trips. What [set] stored under a key, [get] reads back;
    a [set] or [remove] on one key does not change what [get] reads under
    another; after [remove], and for a key that was never set, [get] gives
    the default; a [set] that the browser refused changes nothing. *)
Theorem storage_round_trip (ls : gmap string string) (key other value : string)
    (stored : bool) (defaultValue : option string) :
  storage_get (storage_set true key value ls) key defaultValue = Some value
  /\ storage_get (storage_remove key ls) key defaultValue = defaultValue
  /\ (ls !! key = None -> storage_get ls key defaultValue = defaultValue)
  /\ storage_set false key value ls = ls
  /\ (other <> key ->
      storage_get (storage_set stored key value ls) other defaultValue
      = storage_get ls other defaultValue
      /\ storage_get (storage_remove key ls) other defaultValue
         = storage_get ls other defaultValue).
Proof.
  unfold storage_get, storage_set, storage_remove.
  split; [|split; [|split; [|split]]].
  - by rewrite lookup_insert_eq, stringify_truthy, parse_stringify.
  - by rewrite lookup_delete_eq.
  - by intros ->.
  - done.
  - intros Hne. split.
    + destruct stored; [|done]. by rewrite lookup_insert_ne.
    + by rewrite lookup_delete_ne.
Qed.

End StorageFacts.

(* ===================================================================== *)
(** ** Facts about loading, editing and the local backup *)
(* ===================================================================== *)

Ltac run_session :=
  unfold Session.load, Session.restore, Session.loadFile,
    Session.restoreBackup, Session.read_backup, Session.api_getFileContent,
    Session.setIsLoading, Session.setIsBinary, Session.setBinaryUrl,
    Session.setHasLocalBackup;
  run_handler.

Section SessionFacts.
Import Api Editor Utils Session.
Context `{JsonCodec}.
Variable props : Props.

Lemma differs_same (a : string) : differs a a = false.
Proof. unfold differs. apply bool_decide_eq_false. intros Hne. by apply Hne. Qed.

(** The cells a text load sets, for use below. *)
Lemma load_text_parts (file : FileContentResponse) (w : World) :
  is_binary file = false ->
  content (ui (load props (HttpSuccess file) w))
    = Js.opt_or_else (fc_content file) ""
  /\ originalContent (ui (load props (HttpSuccess file) w))
     = Js.opt_or_else (fc_content file) ""
  /\ hasLocalBackup (ui (load props (HttpSuccess file) w))
     = hasLocalBackup (ui w)
       || backup_differs
            (storage_get (localStorage w) (backupKey props) None)
            (fc_content file)
  /\ localStorage (load props (HttpSuccess file) w) = localStorage w.
Proof.
  intros Htext. run_session. rewrite Htext. simpl.
  destruct (backup_differs _ _); simpl; repeat split; try done.
  - by rewrite orb_true_r.
  - by rewrite orb_false_r.
Qed.

(** After a committed attempt there is no backup to read. *)
Lemma committed_backup_gone (server : Backend) (w : World) :
  attempt_outcome server props (ui w) = Committed ->
  storage_get (localStorage (safe_push server props w)) (backupKey props) None
  = None.
Proof.
  intros Hout. unfold storage_get.
  by rewrite (committed_store server props w Hout), lookup_delete_eq.
Qed.

(** Loading a text file resets the editor to it: content and original are
    the file's content (the empty text when it has none), the fingerprint is
    the file's, the unsaved-changes, binary and loading flags are down.
    The backup flag is raised when local storage holds a non-empty backup
    that differs from the file's content, and is never lowered. Nothing is
    written to local storage and no toast is shown. *)
Theorem load_text_file_resets_editor (file : FileContentResponse) (w : World) :
  is_binary file = false ->
  let after := load props (HttpSuccess file) w in
  content (ui after) = Js.opt_or_else (fc_content file) ""
  /\ originalContent (ui after) = Js.opt_or_else (fc_content file) ""
  /\ sha (ui after) = fc_sha file
  /\ hasUnsavedChanges (ui after) = false
  /\ isBinary (ui after) = false
  /\ isLoading (ui after) = false
  /\ hasLocalBackup (ui after)
     = hasLocalBackup (ui w)
       || backup_differs
            (storage_get (localStorage w) (backupKey props) None)
            (fc_content file)
  /\ localStorage after = localStorage w
  /\ trace after = trace w.
Proof.
  intros Htext. run_session. rewrite Htext. simpl.
  destruct (backup_differs _ _); simpl; repeat split; try done.
  - by rewrite orb_true_r.
  - by rewrite orb_false_r.
Qed.

(** A load that does not deliver a text file, because the file is binary or
    because the request fails, leaves the editor's content, original
    content, fingerprint, unsaved-changes flag, backup flag and local
    storage as they were, and ends with the loading flag down. A binary file
    raises the binary flag; a failure shows the load-failed toast with the
    error's message. *)
Theorem load_without_text_keeps_editor
    (reply : FetchOutcome FileContentResponse) (w : World) :
  delivers_text reply = false ->
  let after := load props reply w in
  content (ui after) = content (ui w)
  /\ originalContent (ui after) = originalContent (ui w)
  /\ sha (ui after) = sha (ui w)
  /\ hasUnsavedChanges (ui after) = hasUnsavedChanges (ui w)
  /\ hasLocalBackup (ui after) = hasLocalBackup (ui w)
  /\ localStorage after = localStorage w
  /\ isLoading (ui after) = false
  /\ match request reply with
     | Returned file =>
         isBinary (ui after) = true
         /\ binaryUrl (ui after) = Js.opt_or_else (download_url file) ""
         /\ trace after = trace w
     | Threw err =>
         isBinary (ui after) = isBinary (ui w)
         /\ trace after = trace w ++ [Toasted (load_failed_toast (message_of err))]
     end.
Proof.
  intros Hreply. run_session.
  destruct reply as [m|st b|file|m]; simpl in *; try done.
  apply negb_false_iff in Hreply. by rewrite Hreply.
Qed.

(** [restoreBackup] without a usable backup, because the key is absent, the
    item is empty or does not parse, or the stored text is empty, changes
    nothing at all. With a backup [b] it puts [b] in the editor, sets the
    unsaved-changes flag by comparing [b] with the original content, lowers
    the backup flag and shows one toast; the backup stays in local
    storage. *)
Theorem restore_backup_behaviour (w : World) :
  let backup := storage_get (localStorage w) (backupKey props) None in
  (falsy backup -> restore props w = w)
  /\ (forall b, backup = Some b -> Js.truthy b = true ->
        content (ui (restore props w)) = b
        /\ hasUnsavedChanges (ui (restore props w))
           = differs b (originalContent (ui w))
        /\ hasLocalBackup (ui (restore props w)) = false
        /\ originalContent (ui (restore props w)) = originalContent (ui w)
        /\ sha (ui (restore props w)) = sha (ui w)
        /\ localStorage (restore props w) = localStorage w
        /\ trace (restore props w) = trace w ++ [Toasted backup_restored_toast]).
Proof.
  intros backup. subst backup. split.
  - intros [Hnone|Hempty]; unfold restore, click, restoreBackup, read_backup,
      bind; simpl.
    + by rewrite Hnone.
    + by rewrite Hempty.
  - intros b Hb Ht. run_session. rewrite Hb, Ht. by simpl.
Qed.

Lemma safe_push_during_idle (server : Backend) (w : World) :
  safe_push_during server props (fun _ w' => w') w = safe_push server props w.
Proof.
  unfold safe_push_during, handleSafePush_during, push_body_during, await.
  gate_cases; reflexivity.
Qed.

(** The Modified badge is honest as long as no Magic Paste result is
    accepted and nothing is typed during a push that gets committed. If the
    unsaved-changes flag tells whether the content differs from the
    original, it still does after [loadFile], after [handleEditorChange]
    and after [restoreBackup], whatever their inputs and the backend's
    answers. A Safe Push attempt takes time, and the page goes on while it
    waits; let what happens meanwhile keep the flag honest too. Then the
    flag is honest after every attempt that is not committed. A committed
    attempt makes the content it was clicked with the original and lowers
    the flag: after it the flag is honest exactly when the editor still
    holds that content, so text typed during the push is shown as saved. *)
Theorem flag_stays_honest (w : World) :
  flag_tells_difference (ui w) ->
  (forall reply, flag_tells_difference (ui (load props reply w)))
  /\ (forall value timer,
        flag_tells_difference
          (ui (world (handleEditorChange value
                        {| world := w; saveTimer := timer |}))))
  /\ flag_tells_difference (ui (restore props w))
  /\ (forall (server : Backend) (meanwhile : nat -> World -> World),
        (forall k w', flag_tells_difference (ui w') ->
                      flag_tells_difference (ui (meanwhile k w'))) ->
        let after := safe_push_during server props meanwhile w in
        (attempt_outcome server props (ui w) <> Committed ->
         flag_tells_difference (ui after))
        /\ (attempt_outcome server props (ui w) = Committed ->
            (flag_tells_difference (ui after)
             <-> content (ui after) = content (ui w)))).
Proof.
  unfold flag_tells_difference. intros Hflag.
  split; [|split; [|split]].
  - intros reply. run_session.
    destruct reply as [m|st b|file|m]; simpl; try done.
    destruct (is_binary file); simpl; [done|].
    destruct (backup_differs _ _); simpl; by rewrite differs_same.
  - intros [v|] timer; simpl; [|done].
    unfold bind, setContent, setHasUnsavedChanges, modify_ui. by simpl.
  - run_session.
    destruct (storage_get _ _ _) as [b|]; simpl; [|done].
    by destruct (Js.truthy b).
  - intros server meanwhile Hpres. cbv zeta.
    unfold attempt_outcome, commit_outcome.
    unfold safe_push_during, handleSafePush_during, push_body_during, await.
    run_handler.
    destruct (on_scanSecrets server _ _) as [m|st b|scanResult|m]; simpl.
    1,2,4: split; [intros _|done];
      destruct (mentions_conflict _); simpl; by apply Hpres.
    destruct (is_safe scanResult); simpl;
      [|split; [intros _|done]; by apply Hpres].
    destruct (on_validateSyntax server _ _ _) as [m|st b|syntaxResult|m]; simpl.
    1,2,4: split; [intros _|done];
      destruct (mentions_conflict _); simpl; apply Hpres; simpl; by apply Hpres.
    destruct (is_valid syntaxResult); simpl;
      [|split; [intros _|done]; apply Hpres; simpl; by apply Hpres].
    destruct (on_commitFile server _) as [m|st b|commitResult|m]; simpl.
    1,2,4: split; [intros _|intros Hout; by repeat case_match];
      destruct (mentions_conflict _); simpl;
      apply Hpres; simpl; apply Hpres; simpl; by apply Hpres.
    destruct (success commitResult); simpl.
    2: { split; [intros _|done].
         apply Hpres; simpl; apply Hpres; simpl; by apply Hpres. }
    split; [done|intros _].
    destruct (onSaveSuccess props); simpl; unfold differs.
    all: split; [intros Hsame; symmetry in Hsame;
                 apply bool_decide_eq_false in Hsame;
                 by apply dec_stable
                |intros ->; symmetry; apply bool_decide_eq_false; by intros Hne].
Qed.

(** A change in the editor: [undefined] changes nothing; a text becomes the
    content, raises the unsaved-changes flag exactly when it differs from
    the original content (typing the original back lowers it), and is
    handed to the save timer. The change itself writes nothing to local
    storage and leaves fingerprint and original content alone. *)
Theorem editor_change_sets_flag (s : Session) (v : string) :
  handleEditorChange None s = s
  /\ content (ui (world (handleEditorChange (Some v) s))) = v
  /\ (hasUnsavedChanges (ui (world (handleEditorChange (Some v) s))) = true
      <-> v <> originalContent (ui (world s)))
  /\ timeout (saveTimer (handleEditorChange (Some v) s)) = Some v
  /\ localStorage (world (handleEditorChange (Some v) s)) = localStorage (world s)
  /\ originalContent (ui (world (handleEditorChange (Some v) s)))
     = originalContent (ui (world s))
  /\ sha (ui (world (handleEditorChange (Some v) s))) = sha (ui (world s)).
Proof.
  split; [done|]. simpl.
  unfold bind, setContent, setHasUnsavedChanges, modify_ui. simpl.
  repeat split; try done.
  - unfold differs. by intros ?%bool_decide_eq_true.
  - unfold differs. intros Hne. by apply bool_decide_eq_true.
Qed.

(** Typing leaves local storage alone, and the timer waits with the last
    value typed. *)
Lemma type_values_pending (s : Session) (values : list string) (v : string) :
  localStorage (world (type_values (values ++ [v]) s)) = localStorage (world s)
  /\ timeout (saveTimer (type_values (values ++ [v]) s)) = Some v
  /\ content (ui (world (type_values (values ++ [v]) s))) = v.
Proof.
  unfold type_values. rewrite foldl_app. simpl.
  unfold bind, setContent, setHasUnsavedChanges, modify_ui. simpl.
  split; [|done].
  induction values as [|x values IH] using rev_ind; [done|].
  rewrite foldl_app. simpl.
  unfold bind, setContent, setHasUnsavedChanges, modify_ui. by simpl.
Qed.

(** The backup is debounced. However many changes arrive before the timer
    runs out, nothing is written while they arrive; when the timer runs
    out, one item is written, under this file's backup key, and it holds
    the last value typed; a timer that runs out again writes nothing. *)
Theorem only_last_change_is_saved (s : Session) (values : list string)
    (v : string) :
  let typed := type_values (values ++ [v]) s in
  let saved := save_timer_fires props true typed in
  localStorage (world typed) = localStorage (world s)
  /\ localStorage (world saved)
     = <[backupKey props := JSON_stringify v]> (localStorage (world s))
  /\ storage_get (localStorage (world saved)) (backupKey props) None = Some v
  /\ save_timer_fires props true saved = saved.
Proof.
  intros typed saved.
  destruct (type_values_pending s values v) as (Hls & Htimer & _).
  fold typed in Hls, Htimer.
  assert (localStorage (world saved)
          = <[backupKey props := JSON_stringify v]> (localStorage (world s)))
    as Hsaved.
  { unfold saved, save_timer_fires, timer_fires. rewrite Htimer. simpl.
    unfold storage_set. by rewrite Hls. }
  split; [done|]. split; [done|]. split.
  - rewrite Hsaved. unfold storage_get.
    by rewrite lookup_insert_eq, stringify_truthy, parse_stringify.
  - unfold saved, save_timer_fires, timer_fires. rewrite Htimer. by simpl.
Qed.

(** A committed push removes the backup for good: Restore Backup right
    after it changes nothing. *)
Theorem restore_after_commit_is_idle (server : Backend) (w : World) :
  attempt_outcome server props (ui w) = Committed ->
  storage_get (localStorage (safe_push server props w)) (backupKey props) None
    = None
  /\ restore props (safe_push server props w) = safe_push server props w.
Proof.
  intros Hout.
  pose proof (committed_backup_gone server w Hout) as Hnone.
  split; [done|].
  unfold restore, click, restoreBackup, read_backup, bind.
  by rewrite Hnone.
Qed.

(** A saved backup comes back after a reload. The user types [v], not
    empty; the timer saves it; the file is loaded again with a content
    other than [v]. Then the backup flag is up, and Restore Backup puts [v]
    back in the editor, marked as unsaved exactly when it differs from the
    loaded content. *)
Theorem backup_survives_reload (s : Session) (v : string)
    (file : FileContentResponse) :
  Js.truthy v = true ->
  is_binary file = false ->
  Some v <> fc_content file ->
  let saved := save_timer_fires props true (handleEditorChange (Some v) s) in
  let reloaded := load props (HttpSuccess file) (world saved) in
  content (ui reloaded) = Js.opt_or_else (fc_content file) ""
  /\ hasLocalBackup (ui reloaded) = true
  /\ content (ui (restore props reloaded)) = v
  /\ hasUnsavedChanges (ui (restore props reloaded))
     = differs v (Js.opt_or_else (fc_content file) "").
Proof.
  intros Hv Htext Hother saved reloaded.
  assert (storage_get (localStorage (world saved)) (backupKey props) None
          = Some v) as Hget.
  { unfold saved, save_timer_fires, timer_fires. simpl.
    unfold storage_get, storage_set.
    by rewrite lookup_insert_eq, stringify_truthy, parse_stringify. }
  destruct (load_text_parts file (world saved) Htext)
    as (Hcontent & Horig & Hbackup & Hls).
  fold reloaded in Hcontent, Horig, Hbackup, Hls.
  assert (storage_get (localStorage reloaded) (backupKey props) None = Some v)
    as Hget' by (by rewrite Hls).
  split; [done|]. split.
  - rewrite Hbackup, Hget. simpl. rewrite Hv. simpl.
    rewrite bool_decide_eq_true_2 by done. apply orb_true_r.
  - unfold restore, click, restoreBackup, read_backup, bind.
    rewrite Hget', Hv. simpl.
    unfold bind, setContent, setHasUnsavedChanges, setHasLocalBackup, show,
      emit, modify_ui. simpl. by rewrite Horig.
Qed.

(** A push does not stop the save timer. The user types [v]; the attempt
    that follows is committed and removes the backup; when the timer then
    runs out, the backup is back in local storage, holding [v]. *)
Theorem save_timer_outlives_push (server : Backend) (s : Session) (v : string) :
  let typed := handleEditorChange (Some v) s in
  attempt_outcome server props (ui (world typed)) = Committed ->
  let pushed := in_world (safe_push server props) typed in
  storage_get (localStorage (world pushed)) (backupKey props) None = None
  /\ storage_get (localStorage (world (save_timer_fires props true pushed)))
       (backupKey props) None = Some v.
Proof.
  intros typed Hout pushed. split.
  - by apply committed_backup_gone.
  - unfold pushed, in_world, save_timer_fires, timer_fires. simpl.
    unfold storage_get, storage_set.
    by rewrite lookup_insert_eq, stringify_truthy, parse_stringify.
Qed.

End SessionFacts.

(* ===================================================================== *)
(** ** Facts about middleware.ts *)
(* ===================================================================== *)

Section MiddlewareFacts.
Import Middleware.

(** The middleware never sends a logged-in user to the login page, and it
    lets every request through whose path begins with a slash, logged in or
    not: ["/"] is listed as a public route and routes match by prefix. *)
Theorem middleware_lets_paths_through (isLoggedIn : bool) (pathname : string) :
  middleware true pathname = Next
  /\ (startsWith pathname "/" = true ->
      isPublicRoute pathname = true /\ middleware isLoggedIn pathname = Next)
  /\ (forall callbackUrl,
        middleware isLoggedIn pathname = RedirectToLogin callbackUrl ->
        isLoggedIn = false /\ callbackUrl = pathname
        /\ startsWith pathname "/" = false).
Proof.
  split; [done|].
  assert (startsWith pathname "/" = true -> isPublicRoute pathname = true) as Hpub.
  { intros Hslash. unfold isPublicRoute. simpl. rewrite Hslash.
    by rewrite orb_true_r. }
  split.
  - intros Hslash. split; [by apply Hpub|].
    unfold middleware. rewrite (Hpub Hslash). by rewrite andb_false_r.
  - intros callbackUrl. unfold middleware.
    destruct isLoggedIn; simpl; [done|].
    destruct (isPublicRoute pathname) eqn:Hp; simpl; [done|].
    intros [= <-]. repeat split.
    destruct (startsWith pathname "/") eqn:Hs; [|done].
    by specialize (Hpub eq_refl).
Qed.

End MiddlewareFacts.

(* ===================================================================== *)
(** ** Facts about Quick Actions *)
(* ===================================================================== *)

Section QuickActionsFacts.
Import Api Editor QuickActions.

(** Without a project ([projectPath] missing or empty) [runAction] shows
    "No project selected" and does nothing else: no request, no state
    change. With a project it sends exactly one request, authorized with
    the [accessToken] prop: for the action ["install"] it asks to install
    the dependencies of the project and the command is not sent; for any
    other action it asks to run the command in the project with a timeout of
    300. It then always ends with the running flag down, the output dialog
    open and an output to show: the backend's result, or, when the request
    throws, a failed result with exit code -1 whose [stderr] is the error's
    message. *)
Theorem run_action_always_reports (props : Props) (action cmd : string)
    (reply : FetchOutcome CommandResponse) (w : World) :
  let after := runAction props action cmd reply w in
  (Utils.falsy (projectPath props) ->
   after = with_event (Toasted (plain_toast Error "No project selected" None)) w)
  /\ (forall project,
        projectPath props = Some project -> Js.truthy project = true ->
        (exists shown,
           trace after
           = trace w
             ++ [Requested (authorization_header (Some (accessToken props)))
                   (if bool_decide (action = "install")
                    then InstallDependencies project None
                    else RunCommand cmd (Some project) 300);
                 Toasted shown])
        /\ isRunning (ui after) = false
        /\ showOutput (ui after) = true
        /\ currentAction (ui after) = action
        /\ commandOutput (ui after)
           = Some match request reply with
                  | Returned result => result
                  | Threw err => failed_output cmd (message_of err)
                  end).
Proof.
  intros after. subst after. split.
  - intros [Hnone|Hempty]; unfold runAction.
    + by rewrite Hnone.
    + by rewrite Hempty.
  - intros project Hproject Ht. unfold runAction. rewrite Hproject. simpl.
    unfold Js.or_else. rewrite Ht. simpl. rewrite Ht. simpl.
    unfold system_call.
    destruct (request reply) as [result|err]; simpl.
    + destruct (cmd_success result); unfold with_ui, with_event, with_token;
        simpl; rewrite <- ?app_assoc; (split; [by eexists|done]).
    + unfold with_ui, with_event, with_token; simpl; rewrite <- ?app_assoc.
      split; [by eexists|done].
Qed.

End QuickActionsFacts.

(* ===================================================================== *)
(** ** Facts about the AI chat *)
(* ===================================================================== *)

Section AIChatFacts.
Import Api Editor AIChat.
Local Open Scope nat_scope.

(** [sendMessage] on a blank input, or while an answer is awaited, does
    nothing at all. Otherwise it sends one chat request whose history is
    the messages so far, in order, followed by the input trimmed; the
    message list only grows: the user's message is appended, and behind it
    the assistant's answer when one arrives. When the request fails the
    user's message stays and an error toast is shown. The input is cleared
    and the loading flag is down at the end. *)
Theorem send_message_appends (props : Props) (fresh : Fresh)
    (reply : FetchOutcome ChatResponse) (w : World) :
  let after := send props fresh reply w in
  let user :=
    {| id := user_id fresh;
       message := {| role := User; msg_content := Js.trim (input (ui w)) |};
       timestamp := user_time fresh |} in
  (Js.blank (input (ui w)) = true \/ isLoading (ui w) = true -> after = w)
  /\ (Js.blank (input (ui w)) = false -> isLoading (ui w) = false ->
      input (ui after) = ""
      /\ isLoading (ui after) = false
      /\ match request reply with
         | Returned response =>
             messages (ui after)
             = messages (ui w)
               ++ [user;
                   {| id := assistant_id fresh;
                      message := {| role := Assistant;
                                    msg_content := chat_content response |};
                      timestamp := assistant_time fresh |}]
             /\ trace after
                = trace w
                  ++ [ChatRequested
                        (authorization_header (Some (accessToken props)))
                        ((message <$> messages (ui w)) ++ [message user])
                        (currentFileContent props) (currentLanguage props);
                      InputFocused]
         | Threw err =>
             messages (ui after) = messages (ui w) ++ [user]
             /\ trace after
                = trace w
                  ++ [ChatRequested
                        (authorization_header (Some (accessToken props)))
                        ((message <$> messages (ui w)) ++ [message user])
                        (currentFileContent props) (currentLanguage props);
                      Toasted (send_failed_toast (message_of err));
                      InputFocused]
         end).
Proof.
  intros after user. subst after user. unfold send, sendMessage. split.
  - intros [Hblank|Hbusy].
    + by rewrite (trim_blank _ Hblank).
    + rewrite Hbusy. by rewrite orb_true_r.
  - intros Hblank Hidle. rewrite (trim_not_blank _ Hblank), Hidle. simpl.
    unfold with_ui, with_event, with_token. simpl.
    destruct (request reply) as [response|err]; simpl;
      rewrite <- ?app_assoc; by simpl.
Qed.

Lemma length_app_string (a b : string) :
  String.length (a +:+ b) = String.length a + String.length b.
Proof.
  induction a as [|c a IH]; [done|].
  change (String c a +:+ b) with (String c (a +:+ b)). simpl. by rewrite IH.
Qed.

Lemma string_drop_length (n : nat) (s : string) :
  String.length (string_drop n s) <= String.length s.
Proof.
  revert s. induction n as [|n IH]; intros [|c s]; simpl; try lia.
  specialize (IH s). lia.
Qed.

(** Cutting at a fence leaves less than there was. *)
Lemma cut_at_fence_shorter (s before after : string) :
  cut_at_fence s = Some (before, after) ->
  String.length after < String.length s.
Proof.
  revert before. induction s as [|c s IH]; intros before; [done|].
  cbn [cut_at_fence String.length].
  destruct (String.prefix fence (String c s)).
  - intros Heq. simplify_eq. pose proof (string_drop_length 2 s). lia.
  - destruct (cut_at_fence s) as [[b a]|]; [|done].
    intros Heq. simplify_eq. specialize (IH _ eq_refl). lia.
Qed.

Lemma skip_word_length (s : string) :
  String.length (skip_word s) <= String.length s.
Proof.
  induction s as [|c s IH]; simpl; [done|].
  destruct (is_word c); simpl; lia.
Qed.

Lemma skip_newline_length (s : string) :
  String.length (skip_newline s) <= String.length s.
Proof.
  destruct s as [|c s]; simpl; [done|].
  destruct (Ascii.eqb c "010"); simpl; lia.
Qed.

(** The rounds never run out: any number of rounds that is at least the
    length of the text gives the same blocks. *)
Lemma extract_enough_fuel (fuel fuel' : nat) (s : string) :
  String.length s <= fuel -> String.length s <= fuel' ->
  extract fuel s = extract fuel' s.
Proof.
  revert fuel' s. induction fuel as [|fuel IH]; intros fuel' s Hfuel Hfuel'.
  - destruct s; [|simpl in Hfuel; lia]. by destruct fuel'.
  - destruct fuel' as [|fuel'].
    { destruct s; [done|simpl in Hfuel'; lia]. }
    simpl.
    destruct (cut_at_fence s) as [[before opened]|] eqn:Hopen; [|done].
    destruct (cut_at_fence (skip_newline (skip_word opened)))
      as [[body rest]|] eqn:Hclose; [|done].
    f_equal.
    pose proof (cut_at_fence_shorter _ _ _ Hopen).
    pose proof (cut_at_fence_shorter _ _ _ Hclose).
    pose proof (skip_word_length opened).
    pose proof (skip_newline_length (skip_word opened)).
    apply IH; lia.
Qed.

Lemma prefix_fence_other (c : ascii) (s : string) :
  c <> BACKTICK -> String.prefix fence (String c s) = false.
Proof.
  intros Hc. unfold fence. cbn [String.prefix].
  destruct (Ascii.ascii_dec "`" c) as [Heq|]; [|done].
  exfalso. apply Hc. symmetry. exact Heq.
Qed.

Lemma cut_without_backtick (s : string) :
  Utils.occurs BACKTICK s = false -> cut_at_fence s = None.
Proof.
  induction s as [|c s IH]; [done|].
  intros [Hc Hs]%orb_false_elim. apply Ascii.eqb_neq in Hc.
  cbn [cut_at_fence]. rewrite (prefix_fence_other _ _ Hc). by rewrite (IH Hs).
Qed.

Lemma cut_at_first_fence (before after : string) :
  Utils.occurs BACKTICK before = false ->
  cut_at_fence (before +:+ fence +:+ after) = Some (before, after).
Proof.
  induction before as [|c before IH]; [intros _; by destruct after|].
  intros [Hc Hs]%orb_false_elim. apply Ascii.eqb_neq in Hc.
  change (String c before +:+ fence +:+ after)
    with (String c (before +:+ fence +:+ after)).
  cbn [cut_at_fence]. rewrite (prefix_fence_other _ _ Hc). by rewrite (IH Hs).
Qed.

Lemma skip_word_tag (tag rest : string) :
  forallb is_word (String.list_ascii_of_string tag) = true ->
  skip_word (tag +:+ String "010" rest) = String "010" rest.
Proof.
  induction tag as [|c tag IH]; [done|]. simpl.
  intros [Hc Htag]%andb_prop.
  change (String c tag +:+ String "010" rest)
    with (String c (tag +:+ String "010" rest)).
  simpl. rewrite Hc. by apply IH.
Qed.

(** What [extractCodeBlocks] finds. A text without a backtick has no block.
    An opening fence that is never closed gives no block either. A block
    that is fenced, carries a language tag of word characters and a line
    feed, and has no backtick inside, is found as its text, trimmed, and
    the search goes on behind its closing fence. *)
Theorem code_blocks_between_fences (before tag body rest : string) :
  Utils.occurs BACKTICK before = false ->
  (extractCodeBlocks before = []
   /\ (Utils.occurs BACKTICK rest = false ->
       extractCodeBlocks (before +:+ fence +:+ rest) = []))
  /\ (forallb is_word (String.list_ascii_of_string tag) = true ->
      Utils.occurs BACKTICK body = false ->
      extractCodeBlocks
        (before +:+ fence +:+ tag +:+ String "010" (body +:+ fence +:+ rest))
      = Js.trim body :: extractCodeBlocks rest).
Proof.
  intros Hbefore. split; [split|].
  - unfold extractCodeBlocks.
    destruct (String.length before); [done|]. simpl.
    by rewrite (cut_without_backtick _ Hbefore).
  - intros Hrest. unfold extractCodeBlocks.
    destruct (String.length _); [done|]. simpl.
    rewrite (cut_at_first_fence _ _ Hbefore).
    assert (Utils.occurs BACKTICK (skip_newline (skip_word rest)) = false) as Hskip.
    { assert (Utils.occurs BACKTICK (skip_word rest) = false) as Hw.
      { clear -Hrest. induction rest as [|c r IH]; [done|].
        simpl in *. apply orb_false_elim in Hrest as [Hc Hr].
        destruct (is_word c); [by apply IH|]. simpl. by rewrite Hc, Hr. }
      destruct (skip_word rest) as [|c r]; [done|]. simpl in *.
      apply orb_false_elim in Hw as [Hc Hr].
      destruct (Ascii.eqb c "010"); [done|]. simpl. by rewrite Hc, Hr. }
    by rewrite (cut_without_backtick _ Hskip).
  - intros Htag Hbody. unfold extractCodeBlocks.
    set (whole := before +:+ fence +:+ tag
                  +:+ String "010" (body +:+ fence +:+ rest)).
    rewrite (extract_enough_fuel (String.length whole)
               (S (String.length whole)) whole) by lia.
    simpl. unfold whole.
    rewrite (cut_at_first_fence _ _ Hbefore).
    rewrite (skip_word_tag _ _ Htag). simpl.
    rewrite (cut_at_first_fence _ _ Hbody).
    f_equal. apply extract_enough_fuel; [|done].
    rewrite !length_app_string. simpl. rewrite !length_app_string. lia.
Qed.

End AIChatFacts.

(* ===================================================================== *)
(** ** Facts about the file explorer and the dashboard *)
(* ===================================================================== *)

Section FileExplorerFacts.
Import Api FileExplorer.
Local Open Scope nat_scope.

(** Induction over a tree: a node without children, and a node all of
    whose children have the property. *)
Lemma TreeNode_induction (P : TreeNode -> Prop) :
  (forall info isExpanded, P (Node info None isExpanded)) ->
  (forall info nodes isExpanded,
     Forall P nodes -> P (Node info (Some nodes) isExpanded)) ->
  forall node, P node.
Proof.
  intros Hleaf Hnode. fix IH 1.
  intros [info [nodes|] isExpanded]; [|apply Hleaf].
  apply Hnode. induction nodes as [|node nodes IHnodes]; constructor.
  - apply IH.
  - apply IHnodes.
Qed.

(** [updateNode] on a node with children that is not the target. *)
Lemma updateNode_children (target : string)
    (listing : nat -> FetchOutcome (list FileInfo))
    (info : FileInfo) (nodes : list TreeNode) (isExpanded : bool) (n : nat) :
  is_target target info = false ->
  updateNode target listing (Node info (Some nodes) isExpanded) n
  = let '(updated, n') := updateTree target listing nodes n in
    (match updated with
     | Some nodes' => Some (Node info (Some nodes') isExpanded)
     | None => None
     end, n').
Proof. intros Hnot. simpl. by rewrite Hnot. Qed.

Lemma updateNode_absent (target : string)
    (listing : nat -> FetchOutcome (list FileInfo)) (node : TreeNode) :
  names_target target node = false ->
  forall n, updateNode target listing node n = (Some node, n).
Proof.
  induction node as [info isExpanded|info nodes isExpanded IH]
    using TreeNode_induction; simpl.
  - rewrite orb_false_r. by intros ->.
  - intros [Hnot Hnodes]%orb_false_elim n. rewrite Hnot.
    assert (forall n, updateTree target listing nodes n = (Some nodes, n)) as Hsame.
    { clear n. induction nodes as [|node nodes IHnodes]; intros n; [done|].
      simpl in Hnodes. apply orb_false_elim in Hnodes as [Hnode Hrest].
      apply Forall_cons in IH as [IHnode IHrest].
      simpl. rewrite (IHnode Hnode). by rewrite (IHnodes IHrest Hrest). }
    change ((let '(updated, n') := updateTree target listing nodes n in
             (match updated with
              | Some nodes' => Some (Node info (Some nodes') isExpanded)
              | None => None
              end, n')) = (Some (Node info (Some nodes) isExpanded), n)).
    by rewrite Hsame.
Qed.

Lemma updateTree_absent (target : string)
    (listing : nat -> FetchOutcome (list FileInfo)) (tree : list TreeNode) :
  existsb (names_target target) tree = false ->
  forall n, updateTree target listing tree n = (Some tree, n).
Proof.
  induction tree as [|node tree IH]; intros Habsent n; [done|].
  simpl in Habsent. apply orb_false_elim in Habsent as [Hnode Hrest].
  simpl. rewrite (updateNode_absent _ _ _ Hnode). by rewrite (IH Hrest).
Qed.

(** Toggling a path that no directory of the tree carries, a file's path
    for instance, leaves the tree as it is and asks the backend
    nothing. *)
Theorem toggle_unknown_path_is_idle (target : string)
    (listing : nat -> FetchOutcome (list FileInfo)) (tree : list TreeNode) :
  existsb (names_target target) tree = false ->
  toggleDirectory target listing tree = (tree, 0).
Proof.
  intros Habsent. unfold toggleDirectory.
  by rewrite (updateTree_absent _ _ _ Habsent).
Qed.

(** A toggle of a listed target sends nothing, keeps the target listed, and
    is undone by the next toggle. *)
Lemma updateNode_listed (target : string)
    (listing : nat -> FetchOutcome (list FileInfo)) (node : TreeNode) :
  target_listed target node = true ->
  forall n, exists node',
    updateNode target listing node n = (Some node', n)
    /\ target_listed target node' = true
    /\ forall listing' m, updateNode target listing' node' m = (Some node, m).
Proof.
  induction node as [info isExpanded|info nodes isExpanded IH]
    using TreeNode_induction; simpl.
  - intros Hnot%negb_true_iff n. rewrite Hnot.
    exists (Node info None isExpanded). simpl. rewrite Hnot. by repeat split.
  - intros Hlisted n.
    destruct (is_target target info) eqn:Htarget.
    + destruct isExpanded.
      * exists (Node info (Some nodes) false). simpl. rewrite Htarget.
        by repeat split.
      * exists (Node info (Some nodes) true). simpl. rewrite Htarget.
        by repeat split.
    + assert (forall n, exists nodes',
                updateTree target listing nodes n = (Some nodes', n)
                /\ forallb (target_listed target) nodes' = true
                /\ forall listing' m,
                     updateTree target listing' nodes' m = (Some nodes, m))
        as Hnodes.
      { clear n. induction nodes as [|node nodes IHnodes]; intros n.
        - by exists [].
        - simpl in Hlisted. apply andb_prop in Hlisted as [Hnode Hrest].
          apply Forall_cons in IH as [IHnode IHrest].
          destruct (IHnode Hnode n) as (node' & Hrun & Hkeep & Hback).
          destruct (IHnodes IHrest Hrest n) as (nodes' & Hruns & Hkeeps & Hbacks).
          exists (node' :: nodes'). simpl. rewrite Hrun, Hruns, Hkeep, Hkeeps.
          repeat split. intros listing' m. by rewrite Hback, Hbacks. }
      destruct (Hnodes n) as (nodes' & Hruns & Hkeeps & Hbacks).
      exists (Node info (Some nodes') isExpanded).
      change ((let '(updated, n') := updateTree target listing nodes n in
               (match updated with
                | Some nodes' => Some (Node info (Some nodes') isExpanded)
                | None => None
                end, n'))
              = (Some (Node info (Some nodes') isExpanded), n)
              /\ target_listed target (Node info (Some nodes') isExpanded) = true
              /\ forall listing' m,
                   updateNode target listing'
                     (Node info (Some nodes') isExpanded) m
                   = (Some (Node info (Some nodes) isExpanded), m)).
      rewrite Hruns. split; [done|]. split; [exact Hkeeps|].
      intros listing' m.
      rewrite (updateNode_children _ _ _ _ _ _ Htarget). by rewrite Hbacks.
Qed.

Lemma updateTree_listed (target : string)
    (listing : nat -> FetchOutcome (list FileInfo)) (tree : list TreeNode) :
  forallb (target_listed target) tree = true ->
  forall n, exists tree',
    updateTree target listing tree n = (Some tree', n)
    /\ forall listing' m, updateTree target listing' tree' m = (Some tree, m).
Proof.
  induction tree as [|node tree IH]; intros Hlisted n.
  - by exists [].
  - simpl in Hlisted. apply andb_prop in Hlisted as [Hnode Hrest].
    destruct (updateNode_listed _ listing _ Hnode n) as (node' & Hrun & _ & Hback).
    destruct (IH Hrest n) as (tree' & Hruns & Hbacks).
    exists (node' :: tree'). simpl. rewrite Hrun, Hruns. split; [done|].
    intros listing' m. by rewrite Hback, Hbacks.
Qed.

(** Collapsing and expanding costs nothing once a directory is listed. If
    every directory of the tree that carries the path has its children,
    a toggle sends no listing request, and toggling again gives back the
    tree as it was, whatever the backend would have answered. *)
Theorem toggle_twice_restores_tree (target : string)
    (listing listing' : nat -> FetchOutcome (list FileInfo))
    (tree : list TreeNode) :
  forallb (target_listed target) tree = true ->
  snd (toggleDirectory target listing tree) = 0
  /\ toggleDirectory target listing' (fst (toggleDirectory target listing tree))
     = (tree, 0).
Proof.
  intros Hlisted.
  destruct (updateTree_listed _ listing _ Hlisted 0) as (tree' & Hrun & Hback).
  unfold toggleDirectory. rewrite Hrun. simpl. by rewrite Hback.
Qed.

End FileExplorerFacts.

Section DashboardFacts.
Import Api Editor Dashboard.

(** The editor commits to the selected repository. When its full name is
    an owner and a name joined by one slash, the editor gets that owner and
    that name, and the [repo_full_name] of its commit request and the
    repository part of its backup key are the full name again. Segments
    behind a second slash are dropped. *)
Theorem editor_commits_to_selected_repo (owner name more file token language : string)
    (r : EditorState) :
  Utils.occurs "/" owner = false ->
  Utils.occurs "/" name = false ->
  let full_name := owner +:+ String "/" name in
  let props := editor_props (Some full_name) file token language in
  Editor.owner props = owner
  /\ Editor.repo props = name
  /\ repo_full_name (commit_request props r) = full_name
  /\ backupKey props = getBackupKey full_name file
  /\ editor_props (Some (full_name +:+ String "/" more)) file token language
     = props.
Proof.
  intros Howner Hname full_name props.
  assert (Utils.split "/" full_name = [owner; name]) as Hsplit.
  { unfold full_name.
    by rewrite split_app, (split_without _ _ Howner), (split_without _ _ Hname). }
  assert (exists rest,
            Utils.split "/" (full_name +:+ String "/" more)
            = owner :: name :: rest) as [rest Hmore].
  { rewrite split_app, Hsplit.
    destruct (split_nonempty "/" more) as (seg & segs & ->). by eexists. }
  unfold props, editor_props, owner_and_repo. rewrite Hsplit, Hmore. simpl.
  repeat split.
Qed.

End DashboardFacts.

(* ===================================================================== *)
(** ** Facts about the session callbacks *)
(* ===================================================================== *)

Section AuthFacts.
Import Auth.

Lemma jwt_calls_without_account (token : JWT) (n : nat) :
  jwt_calls token (replicate n None) = token.
Proof.
  unfold jwt_calls. induction n as [|n IH]; [done|]. exact IH.
Qed.

(** The session shows the access token of the last sign-in. After a call of
    [jwt] with an account, any number of later calls without one keep the
    token of that account, whatever the token held before, and the [session]
    callback puts it in the session and leaves the rest of the session as it
    was. Calls without an account never change a token. *)
Theorem session_shows_last_sign_in (token : JWT) (s : Session)
    (earlier : list (option Account)) (a : Account) (n : nat) :
  let token' := jwt_calls token (earlier ++ Some a :: replicate n None) in
  accessToken (session s token') = access_token a
  /\ expires (session s token') = expires s
  /\ jwt_calls token (replicate n None) = token.
Proof.
  intros token'. subst token'. split; [|split].
  - unfold jwt_calls. rewrite foldl_app. simpl.
    fold (jwt_calls {| jwt_accessToken := access_token a |} (replicate n None)).
    by rewrite jwt_calls_without_account.
  - reflexivity.
  - apply jwt_calls_without_account.
Qed.

End AuthFacts.

(* ===================================================================== *)
(** ** More instances *)
(* ===================================================================== *)

Section MoreInstances.
Import Api Editor Examples MoreExamples.

(** A 409 whose body carries a [detail]. *)
Lemma api_error_message_choice_witness :
  request conflict = Threw (ApiError 409 "Conflict: file was modified").
Proof.
  destruct (api_error_message_choice CommitResponse 409)
    as (_ & _ & Hdetail & _).
  exact (Hdetail (JObject [("detail", JString "Conflict: file was modified")])
           "Conflict: file was modified" eq_refl eq_refl).
Defined.

(** The backend accepts the commit of [world0]. *)
Lemma committed_attempt_cleans_editor_witness :
  hasUnsavedChanges (ui (safe_push committing props0 world0)) = false
  /\ localStorage (safe_push committing props0 world0)
     = delete (backupKey props0) (localStorage world0).
Proof.
  destruct (committed_attempt_cleans_editor committing props0 world0 eq_refl)
    as (_ & _ & Hflag & Hstore & _).
  split; [exact Hflag|exact Hstore].
Defined.

(** Another key of the browser's storage. *)
Lemma safe_push_frame_witness :
  localStorage (safe_push committing props0 world0) !! "theme"
  = localStorage world0 !! "theme".
Proof.
  destruct (safe_push_frame committing props0 world0)
    as (_ & _ & _ & _ & _ & _ & _ & _ & _ & Hframe).
  apply Hframe. vm_compute. discriminate.
Defined.

(** The backend answers the commit with [success: false]. *)
Lemma unaccepted_commit_is_silent_witness :
  final_toast world0 (safe_push declining props0 world0)
  = Some (loading "Pushing to GitHub...")
  /\ localStorage (safe_push declining props0 world0) = localStorage world0.
Proof.
  destruct (unaccepted_commit_is_silent declining props0 world0 unaccepted
              eq_refl eq_refl eq_refl eq_refl)
    as (Htoast & _ & _ & _ & _ & Hstore).
  split; [exact Htoast|exact Hstore].
Defined.

(** The dialog holds a snippet and the backend answers [replaced]. *)
Lemma magic_paste_is_preview_only_witness :
  content (ui (click (handleMagicPaste replacing props0) world_with_paste))
  = "print(1)"
  /\ magicPasteResult
       (ui (click (handleMagicPaste replacing props0) world_with_paste))
     = Some replaced.
Proof.
  destruct (magic_paste_is_preview_only replacing props0 world_with_paste)
    as [(Hcontent & _) Hpreview].
  destruct (Hpreview eq_refl) as (_ & _ & Hresult).
  split; [exact Hcontent|exact (proj1 Hresult)].
Defined.

(** An upper-case extension, and a name without a dot. *)
Lemma file_extension_is_last_segment_witness :
  Utils.getFileExtension "src/App.PY" = "py"
  /\ Utils.getFileExtension "Makefile" = "makefile".
Proof.
  destruct (file_extension_is_last_segment "src/App" "PY" "Makefile"
              eq_refl eq_refl)
    as (Hext & Hnone & _).
  split; [exact (Hext eq_refl)|exact (Hnone eq_refl)].
Defined.

(** A picture. *)
Lemma binary_file_by_extension_witness :
  Utils.isBinaryFile "img/logo.png" = true.
Proof.
  destruct (binary_file_by_extension "img/logo.png" "img/logo" "png" eq_refl)
    as (_ & Hbinary & _).
  apply Hbinary.
  unfold Utils.binaryExtensionNames.
  repeat first [apply list_elem_of_here | apply list_elem_of_further].
Defined.

(** A Python file, and a file whose extension is a member of
    [Object.prototype]. *)
Lemma monaco_language_by_extension_witness :
  Utils.getMonacoLanguage "src/app.py" = Utils.LanguageName "python"
  /\ Utils.getMonacoLanguage "notes.constructor"
     = Utils.PrototypeMember "constructor".
Proof.
  split.
  - destruct (monaco_language_by_extension "src/app.py" eq_refl)
      as (_ & Hown & _).
    destruct Hown as (name & Hlanguage & _ & _ & Hname).
    + apply (proj1 (bool_decide_eq_false _)). vm_compute. reflexivity.
    + rewrite (Hname "python" eq_refl) in Hlanguage. exact Hlanguage.
  - destruct (monaco_language_by_extension "notes.constructor" eq_refl)
      as (_ & _ & Hinherited).
    apply Hinherited. apply list_elem_of_here.
Defined.

(** Writing one key leaves another as it was. *)
Lemma storage_round_trip_witness :
  @Utils.storage_get Session.quoting
    (@Utils.storage_set Session.quoting true "draft" "print(2)" ∅)
    "theme" None
  = @Utils.storage_get Session.quoting ∅ "theme" None.
Proof.
  destruct (@storage_round_trip Session.quoting ∅ "draft" "theme" "print(2)"
              true None)
    as (_ & _ & _ & _ & Hother).
  apply Hother. discriminate.
Defined.

(** The backend delivers a text file. *)
Lemma load_text_file_resets_editor_witness :
  content (ui (@Session.load Session.quoting props0 (HttpSuccess text_file)
                 world0))
  = "print(0)"
  /\ hasUnsavedChanges
       (ui (@Session.load Session.quoting props0 (HttpSuccess text_file)
              world0))
     = false.
Proof.
  destruct (@load_text_file_resets_editor Session.quoting props0 text_file
              world0 eq_refl)
    as (Hcontent & _ & _ & Hflag & _).
  split; [exact Hcontent|exact Hflag].
Defined.

(** The request for the file is rejected. *)
Lemma load_without_text_keeps_editor_witness :
  content (ui (@Session.load Session.quoting props0
                 (FetchRejected "Failed to fetch") world0))
  = "print(1)".
Proof.
  destruct (@load_without_text_keeps_editor Session.quoting props0
              (FetchRejected "Failed to fetch") world0 eq_refl)
    as (Hcontent & _).
  exact Hcontent.
Defined.

(** A readable backup, and one that [Session.quoting] cannot parse. *)
Lemma restore_backup_behaviour_witness :
  content (ui (@Session.restore Session.quoting props0 world_with_backup))
  = "print(2)"
  /\ @Session.restore Session.quoting props0 world0 = world0.
Proof.
  split.
  - destruct (@restore_backup_behaviour Session.quoting props0
                world_with_backup) as [_ Hbackup].
    destruct (Hbackup "print(2)" eq_refl eq_refl) as (Hcontent & _).
    exact Hcontent.
  - destruct (@restore_backup_behaviour Session.quoting props0 world0)
      as [Hnone _].
    apply Hnone. left. reflexivity.
Defined.

(** [world0] has unsaved changes and its flag says so. A push of it is
    committed: once with the page idle, once with [print(3)] typed while
    the scan is awaited. *)
Lemma flag_stays_honest_witness :
  Session.flag_tells_difference
    (ui (Session.safe_push_during committing props0 (fun _ w => w) world0))
  /\ ~ Session.flag_tells_difference
        (ui (Session.safe_push_during committing props0 typing_during_scan
               world0)).
Proof.
  destruct (@flag_stays_honest Session.quoting props0 world0 eq_refl)
    as (_ & _ & _ & Hpush).
  split.
  - destruct (Hpush committing (fun _ w => w) (fun _ _ Hw => Hw))
      as [_ Hcommitted].
    by apply (Hcommitted eq_refl).
  - destruct (Hpush committing typing_during_scan) as [_ Hcommitted].
    + intros [|k] w' Hw'; [|exact Hw'].
      destruct (@flag_stays_honest Session.quoting props0 w' Hw')
        as (_ & Hchange & _).
      exact (Hchange (Some "print(3)") {| Utils.timeout := None |}).
    + intros Hhonest. apply (Hcommitted eq_refl) in Hhonest.
      vm_compute in Hhonest. discriminate Hhonest.
Defined.

(** After the commit of [world0] there is nothing to restore. *)
Lemma restore_after_commit_is_idle_witness :
  @Session.restore Session.quoting props0 (safe_push committing props0 world0)
  = safe_push committing props0 world0.
Proof.
  destruct (@restore_after_commit_is_idle Session.quoting props0 committing
              world0 eq_refl) as [_ Hidle].
  exact Hidle.
Defined.

(** [print(2)] is typed and saved, then the file is loaded again. *)
Lemma backup_survives_reload_witness :
  hasLocalBackup
    (ui (@Session.load Session.quoting props0 (HttpSuccess text_file)
           (Session.world
              (@Session.save_timer_fires Session.quoting props0 true
                 (Session.handleEditorChange (Some "print(2)") session0)))))
  = true.
Proof.
  destruct (@backup_survives_reload Session.quoting props0 session0 "print(2)"
              text_file eq_refl eq_refl)
    as (_ & Hbackup & _).
  - discriminate.
  - exact Hbackup.
Defined.

(** [print(2)] is typed and pushed before the save timer fires. *)
Lemma save_timer_outlives_push_witness :
  @Utils.storage_get Session.quoting
    (localStorage
       (Session.world
          (@Session.save_timer_fires Session.quoting props0 true
             (Session.in_world (safe_push committing props0)
                (Session.handleEditorChange (Some "print(2)") session0)))))
    (backupKey props0) None
  = Some "print(2)".
Proof.
  destruct (@save_timer_outlives_push Session.quoting props0 committing
              session0 "print(2)" eq_refl)
    as [_ Hsaved].
  exact Hsaved.
Defined.

(** A visitor who is not logged in asks for the dashboard. *)
Lemma middleware_lets_paths_through_witness :
  Middleware.middleware false "/dashboard" = Middleware.Next.
Proof.
  destruct (middleware_lets_paths_through false "/dashboard")
    as (_ & Hpublic & _).
  destruct (Hpublic eq_refl) as [_ Hnext].
  exact Hnext.
Defined.

(** No project is selected; then one is, and the request is rejected. *)
Lemma run_action_always_reports_witness :
  QuickActions.runAction no_project "install" "npm install"
    (FetchRejected "Failed to fetch") idle_actions
  = QuickActions.with_event
      (QuickActions.Toasted
         (QuickActions.plain_toast Error "No project selected" None))
      idle_actions
  /\ QuickActions.isRunning
       (QuickActions.ui
          (QuickActions.runAction some_project "install" "npm install"
             (FetchRejected "Failed to fetch") idle_actions))
     = false.
Proof.
  split.
  - destruct (run_action_always_reports no_project "install" "npm install"
                (FetchRejected "Failed to fetch") idle_actions)
      as [Hnone _].
    apply Hnone. left. reflexivity.
  - destruct (run_action_always_reports some_project "install" "npm install"
                (FetchRejected "Failed to fetch") idle_actions)
      as [_ Hproject].
    destruct (Hproject "octo/site" eq_refl eq_refl) as (_ & Hrunning & _).
    exact Hrunning.
Defined.

(** A question is typed and the backend answers it. *)
Lemma send_message_appends_witness :
  AIChat.input
    (AIChat.ui (AIChat.send chat_props chat_fresh chat_answer chat_with_input))
  = "".
Proof.
  destruct (send_message_appends chat_props chat_fresh chat_answer
              chat_with_input)
    as [_ Hsent].
  destruct (Hsent eq_refl eq_refl) as (Hinput & _).
  exact Hinput.
Defined.

(** One fenced block with a language tag. *)
Lemma code_blocks_between_fences_witness :
  AIChat.extractCodeBlocks
    ("Use: " +:+ AIChat.fence +:+ "python"
       +:+ String "010" ("print(1)" +:+ AIChat.fence +:+ " done"))
  = ["print(1)"].
Proof.
  destruct (code_blocks_between_fences "Use: " "python" "print(1)" " done"
              eq_refl)
    as [_ Hblock].
  exact (Hblock eq_refl eq_refl).
Defined.

(** [small_tree] has no node [docs]. *)
Lemma toggle_unknown_path_is_idle_witness :
  FileExplorer.toggleDirectory "docs" no_listing small_tree = (small_tree, 0%nat).
Proof.
  apply (toggle_unknown_path_is_idle "docs" no_listing small_tree).
  reflexivity.
Defined.

(** The directory [src] of [small_tree] is listed. *)
Lemma toggle_twice_restores_tree_witness :
  FileExplorer.toggleDirectory "src" no_listing
    (fst (FileExplorer.toggleDirectory "src" no_listing small_tree))
  = (small_tree, 0%nat).
Proof.
  destruct (toggle_twice_restores_tree "src" no_listing no_listing small_tree
              eq_refl)
    as [_ Hback].
  exact Hback.
Defined.

(** The repository [octo/site] is selected. *)
Lemma editor_commits_to_selected_repo_witness :
  Editor.repo
    (Dashboard.editor_props (Some "octo/site") "src/app.py" "gho_token" "python")
  = "site".
Proof.
  destruct (editor_commits_to_selected_repo "octo" "site" "extra" "src/app.py"
              "gho_token" "python" state0 eq_refl eq_refl)
    as (_ & Hrepo & _).
  exact Hrepo.
Defined.

End MoreInstances.
